(** * quarry/types/chunk.py: packed block arrays and light arrays

    A shallow embedding of [BlockArray] and [LightArray] and the proofs of
    their round-trip, repacking and bounds properties.

    Python integers are unbounded, so words and indices are [Z]; [//] and
    [%] by a positive constant are [Z.div] and [Z.modulo] (both floor);
    [<<], [>>], [&], [|] and [~] are [Z.shiftl], [Z.shiftr], [Z.land],
    [Z.lor] and [Z.lnot] (the shift counts of the source are never
    negative).  A Python list is a [list]; indexing follows
    Python: a negative index counts from the end and an index outside
    [-len, len) raises [IndexError].  Mutation of [self] is explicit state
    passing: a method returns the state it leaves behind together with
    either its result or the exception it raised. *)

From Stdlib Require Import ZArith Lia Bool List Btauto.
From stdpp Require Import base decidable option list.

Local Open Scope Z_scope.

(** ** Exceptions and results *)

Inductive error : Type :=
| IndexError      (* list index out of range *)
| ValueError      (* math domain error *)
| RegistryError   (* raised by the block map *)
| OutOfFuel.      (* recursion budget of the model exhausted *)

Inductive result (A : Type) : Type :=
| Ok (a : A)
| Err (e : error).
Arguments Ok {A} a.
Arguments Err {A} e.

Definition rbind {A B} (r : result A) (k : A -> result B) : result B :=
  match r with
  | Ok a => k a
  | Err e => Err e
  end.

Notation "'let!' x ':=' r 'in' k" := (rbind r (fun x => k))
  (at level 10, x name, r at level 100, k at level 200).

Definition of_option {A} (e : error) (o : option A) : result A :=
  match o with
  | Some a => Ok a
  | None => Err e
  end.

(** ** Python list indexing *)

Definition py_norm {A} (l : list A) (i : Z) : option nat :=
  let len := Z.of_nat (length l) in
  if (0 <=? i) && (i <? len) then Some (Z.to_nat i)
  else if (- len <=? i) && (i <? 0) then Some (Z.to_nat (i + len))
  else None.

(** [l[i]] *)
Definition py_get {A} (l : list A) (i : Z) : result A :=
  match py_norm l i with
  | Some k => of_option IndexError (l !! k)
  | None => Err IndexError
  end.

(** [l[i] = x] *)
Definition py_set {A} (l : list A) (i : Z) (x : A) : result (list A) :=
  match py_norm l i with
  | Some k => Ok (<[k:=x]> l)
  | None => Err IndexError
  end.

(** [l[i] op= ...], that is [l[i] = f (l[i])] *)
Definition py_aug (f : Z -> Z) (l : list Z) (i : Z) : result (list Z) :=
  let! w := py_get l i in py_set l i (f w).

(** [l.index(x)]; [None] stands for the [ValueError] the caller catches. *)
Fixpoint py_index (l : list Z) (x : Z) : option Z :=
  match l with
  | [] => None
  | y :: l' => if y =? x then Some 0 else option_map Z.succ (py_index l' x)
  end.

(** ** Python slices and ranges *)

(** [slice(start, stop, step)]; [None] is an omitted part. *)
Record slice : Type := mk_slice {
  sl_start : option Z;
  sl_stop : option Z;
  sl_step : option Z
}.

(** One given bound of [slice.indices]: a negative bound counts from the
    end, and both ends are clipped. *)
Definition clamp_bound (lower upper len x : Z) : Z :=
  if x <? 0 then (if x + len <? lower then lower else x + len)
  else (if upper <? x then upper else x).

(** [sl.indices(len)]; a zero step raises [ValueError]. *)
Definition slice_indices (sl : slice) (len : Z) : result (Z * Z * Z) :=
  let step := match sl_step sl with
              | None => 1
              | Some c => c
              end in
  if step =? 0 then Err ValueError
  else
    let lower := if step <? 0 then -1 else 0 in
    let upper := if step <? 0 then len - 1 else len in
    let start := match sl_start sl with
                 | None => if step <? 0 then upper else lower
                 | Some a => clamp_bound lower upper len a
                 end in
    let stop := match sl_stop sl with
                | None => if step <? 0 then lower else upper
                | Some b => clamp_bound lower upper len b
                end in
    Ok (start, stop, step).

(** [xrange(start, stop, step)] as the list it yields, for a nonzero
    [step]. *)
Definition py_range (start stop step : Z) : list Z :=
  let n := if 0 <? step then (stop - start + step - 1) / step
           else (start - stop - step - 1) / (- step) in
  (fun i => start + i * step) <$> seqZ 0 n.

(** [_Array.__len__] *)
Definition array_len : Z := 4096.

(** [int(math.ceil(math.log(n, 2)))].  The floating-point quotient is
    modelled by the exact integer logarithm; the two agree on every size
    up to 256, and above 256 both exceed 8, which is all [repack] looks
    at.  [math.log] raises [ValueError] outside its domain. *)
Definition ceil_log2 (n : Z) : result Z :=
  if n <=? 0 then Err ValueError else Ok (Z.log2_up n).

(** ** The collaborators *)

(** [block_map]: the registry translating descriptors to global ids. *)
Class BlockMap (D : Type) : Type := {
  encode_block : D -> option Z;
  decode_block : Z -> option D;
  max_bits : Z
}.

(** [set(...)]: the order in which a Python set yields its members is
    not specified; [set_of] is that order for the sequence of inserted
    values. *)
Class PySet (D : Type) : Type := {
  set_of : list D -> list D
}.

(** A registry the arrays can work with: [decode_block] inverts
    [encode_block], every global id fits the direct width, the direct
    width fits a two-word span, and id 0 (air) is known. *)
Record registry_ok {D} `{BlockMap D} : Prop := {
  decode_encode : forall d g, encode_block d = Some g -> decode_block g = Some d;
  encode_decode : forall d g, decode_block g = Some d -> encode_block d = Some g;
  id_range : forall d g, encode_block d = Some g -> 0 <= g < 2 ^ max_bits;
  max_bits_range : 1 <= max_bits <= 64;
  air_known : exists d, decode_block 0 = Some d
}.
Arguments registry_ok {D} _.

(** A set has no duplicates and exactly the members inserted. *)
Record set_ok {D} `{PySet D} : Prop := {
  set_of_nodup : forall l : list D, NoDup (set_of l);
  set_of_elem : forall (l : list D) x, x ∈ set_of l <-> x ∈ l
}.
Arguments set_ok {D} _.

(** ** BlockArray *)

Module BlockArray.

Record t : Type := mk {
  data : list Z;
  bits : Z;
  palette : option (list Z)
}.

Definition with_data (s : t) (d : list Z) : t :=
  {| data := d; bits := bits s; palette := palette s |}.

Definition with_palette (s : t) (p : list Z) : t :=
  {| data := data s; bits := bits s; palette := Some p |}.

(** [BlockArray.empty] *)
Definition empty : t :=
  {| data := replicate 256 0; bits := 4; palette := Some [0] |}.

(** [BlockArray.is_empty]; [any] tests each word for truth. *)
Definition is_empty (s : t) : bool :=
  match palette s with
  | Some p => bool_decide (p = [0])
  | None => negb (existsb (fun w => negb (w =? 0)) (data s))
  end.

(** The packed field of cell [n]: lines 86-97 of [__getitem__]. *)
Definition field (s : t) (n : Z) : result Z :=
  let idx0 := (bits s * n) / 64 in
  let idx1 := (bits s * (n + 1) - 1) / 64 in
  let off0 := (bits s * n) mod 64 in
  let off1 := 64 - off0 in
  let! val :=
    (if idx0 =? idx1 then
       let! w0 := py_get (data s) idx0 in Ok (Z.shiftr w0 off0)
     else
       let! w0 := py_get (data s) idx0 in
       let! w1 := py_get (data s) idx1 in
       Ok (Z.lor (Z.shiftr w0 off0) (Z.shiftl w1 off1))) in
  Ok (Z.land val (Z.shiftl 1 (bits s) - 1)).

(** The global id of cell [n]: the palette step of [__getitem__]. *)
Definition cell_id (s : t) (n : Z) : result Z :=
  let! val := field s n in
  match palette s with
  | Some p => py_get p val
  | None => Ok val
  end.

(** The store of [__setitem__], lines 122-136.  Each augmented
    assignment reads and writes one word; the state returned with an
    exception holds the words written before it. *)
Definition store (s : t) (n val : Z) : t * result unit :=
  let idx0 := (bits s * n) / 64 in
  let idx1 := (bits s * (n + 1) - 1) / 64 in
  let off0 := (bits s * n) mod 64 in
  let off1 := 64 - off0 in
  let mask0 := Z.shiftl (Z.shiftl 1 (bits s) - 1) off0 in
  let mask1 := Z.shiftr (Z.shiftl 1 (bits s) - 1) off1 in
  match py_aug (fun w => Z.land w (Z.land (2 ^ 64 - 1) (Z.lnot mask0)))
               (data s) idx0 with
  | Err e => (s, Err e)
  | Ok d1 =>
    match py_aug (fun w => Z.lor w (Z.land (Z.land (2 ^ 64 - 1) mask0)
                                           (Z.shiftl val off0)))
                 d1 idx0 with
    | Err e => (with_data s d1, Err e)
    | Ok d2 =>
      if idx0 =? idx1 then (with_data s d2, Ok tt)
      else
        match py_aug (fun w => Z.land w (Z.lnot mask1)) d2 idx1 with
        | Err e => (with_data s d2, Err e)
        | Ok d3 =>
          match py_aug (fun w => Z.lor w (Z.land mask1 (Z.shiftr val off1)))
                       d3 idx1 with
          | Err e => (with_data s d3, Err e)
          | Ok d4 => (with_data s d4, Ok tt)
          end
        end
    end
  end.

(** A storage word is an unsigned 64-bit integer. *)
Definition is_word (w : Z) : Prop := 0 <= w < 2 ^ 64.

(** Storage is well formed: the width fits a two-word span, there are
    [64 * bits] words ([ceil(4096 * bits / 64)]), each of 64 bits. *)
Record wf (s : t) : Prop := {
  wf_bits : 1 <= bits s <= 64;
  wf_length : Z.of_nat (length (data s)) = 64 * bits s;
  wf_words : Forall is_word (data s)
}.

(** Bit [k] of the storage read as one little-endian bit string. *)
Definition gbit (d : list Z) (k : Z) : bool :=
  Z.testbit (default 0 (d !! Z.to_nat (k / 64))) (k mod 64).

Section Ops.
Context {D : Type} `{BlockMap D} `{PySet D}.

(** [BlockArray.__getitem__] at an integer index *)
Definition getitem (s : t) (n : Z) : result D :=
  let! g := cell_id s n in of_option RegistryError (decode_block g).

(** [self[:]]: [[self[o] for o in xrange(4096)]] *)
Fixpoint getitems (s : t) (os : list Z) : result (list D) :=
  match os with
  | [] => Ok []
  | o :: os' =>
    let! v := getitem s o in let! vs := getitems s os' in Ok (v :: vs)
  end.

Definition getslice (s : t) : result (list D) := getitems s (seqZ 0 4096).

(** Iteration over [self] ([Sequence.__iter__]): [self[0]], [self[1]],
    ... until one raises [IndexError]; any other exception goes to the
    caller. *)
Fixpoint iter_from (fuel : nat) (s : t) (i : Z) : result (list D) :=
  match fuel with
  | O => Err OutOfFuel
  | S fuel' =>
    match getitem s i with
    | Ok v => let! vs := iter_from fuel' s (i + 1) in Ok (v :: vs)
    | Err IndexError => Ok []
    | Err e => Err e
    end
  end.

Definition iter (s : t) : result (list D) := iter_from 4097 s 0.

(** [[self.block_map.encode_block(val) for val in ...]] *)
Fixpoint encode_all (vs : list D) : result (list Z) :=
  match vs with
  | [] => Ok []
  | v :: vs' =>
    let! g := of_option RegistryError (encode_block v) in
    let! gs := encode_all vs' in Ok (g :: gs)
  end.

(** The width and palette [repack] settles on for the computed width
    [b], lines 60-65: indirect up to 8 bits and never below 4, direct
    above. *)
Definition new_encoding (b : Z) (pal : list Z) : Z * option (list Z) :=
  if b <=? 8 then (if b <? 4 then 4 else b, Some pal)
  else (max_bits, None).

Section Bodies.
(** [__setitem__] and [repack] call each other; each body takes the
    other as [setitem_rec] or [repack_rec]. *)
Variable setitem_rec : t -> Z -> D -> t * result unit.

(** [self[:] = values]: [for o in xrange(4096): self[o] = val[o]] *)
Fixpoint setitems (s : t) (values : list D) (os : list Z)
  : t * result unit :=
  match os with
  | [] => (s, Ok tt)
  | o :: os' =>
    match py_get values o with
    | Err e => (s, Err e)
    | Ok v =>
      match setitem_rec s o v with
      | (s', Ok _) => setitems s' values os'
      | (s', Err e) => (s', Err e)
      end
    end
  end.

Definition setslice (s : t) (values : list D) : t * result unit :=
  setitems s values (seqZ 0 4096).

(** [repack] from "Save contents" on, lines 67-80, for the new width
    [b] and palette [pal']. *)
Definition repack_to (s : t) (b : Z) (pal' : option (list Z))
  : t * result unit :=
  if bits s =? b then (s, Ok tt)
  else
    match getslice s with
    | Err e => (s, Err e)
    | Ok values =>
      setslice {| data := replicate (Z.to_nat (64 * b)) 0;
                  bits := b; palette := pal' |} values
    end.

(** [repack] from "Compute new bits" on, lines 58-80. *)
Definition repack_with (s : t) (pal : list Z) (palette_len : Z)
  : t * result unit :=
  match ceil_log2 palette_len with
  | Err e => (s, Err e)
  | Ok b => let '(b', pal') := new_encoding b pal in repack_to s b' pal'
  end.

(** [BlockArray.repack] *)
Definition repack_body (s : t) (reserve : option Z) : t * result unit :=
  match reserve with
  | None =>
    match let! vs := iter s in encode_all (set_of vs) with
    | Err e => (s, Err e)
    | Ok pal => repack_with s pal (Z.of_nat (length pal))
    end
  | Some r =>
    match palette s with
    | None => (s, Ok tt)
    | Some pal => repack_with s pal (Z.of_nat (length pal) + r)
    end
  end.
End Bodies.

(** [__setitem__], lines 110-120: the field value for [val]; a global
    id missing from the palette is appended after [repack(reserve=1)],
    unless that switched to direct mode. *)
Definition translate (repack_rec : t -> option Z -> t * result unit)
    (s : t) (val : D) : t * result Z :=
  match encode_block val with
  | None => (s, Err RegistryError)
  | Some g =>
    match palette s with
    | Some p =>
      match py_index p g with
      | Some i => (s, Ok i)
      | None =>
        match repack_rec s (Some 1) with
        | (s1, Err e) => (s1, Err e)
        | (s1, Ok _) =>
          match palette s1 with
          | Some p1 =>
            (with_palette s1 (p1 ++ [g]), Ok (Z.of_nat (length (p1 ++ [g])) - 1))
          | None => (s1, Ok g)
          end
        end
      end
    | None => (s, Ok g)
    end
  end.

(** [BlockArray.__setitem__] at an integer index *)
Definition setitem_body (repack_rec : t -> option Z -> t * result unit)
    (s : t) (n : Z) (val : D) : t * result unit :=
  match translate repack_rec s val with
  | (s1, Err e) => (s1, Err e)
  | (s1, Ok v) => store s1 n v
  end.

(** The two methods tied together; [fuel] bounds the depth of the
    mutual recursion. *)
Fixpoint setitem (fuel : nat) (s : t) (n : Z) (val : D) : t * result unit :=
  match fuel with
  | O => (s, Err OutOfFuel)
  | S fuel' => setitem_body (repack_body (setitem fuel')) s n val
  end.

Definition repack (fuel : nat) (s : t) (reserve : option Z)
  : t * result unit :=
  repack_body (setitem fuel) s reserve.

(** [BlockArray.__getitem__] at a slice, lines 83-84 *)
Definition getitem_slice (s : t) (sl : slice) : result (list D) :=
  match slice_indices sl 4096 with
  | Err e => Err e
  | Ok (a, b, c) => getitems s (py_range a b c)
  end.

(** [BlockArray.__setitem__] at a slice, lines 105-108; the values are
    taken from [val] at the cell's own index. *)
Definition setitem_slice (fuel : nat) (s : t) (sl : slice) (val : list D)
  : t * result unit :=
  match slice_indices sl 4096 with
  | Err e => (s, Err e)
  | Ok (a, b, c) => setitems (setitem fuel) s val (py_range a b c)
  end.

(** The value the writes [ws] leave at index [i], if one of them is at
    [i]: the last one. *)
Fixpoint last_write (ws : list (Z * D)) (i : Z) : option D :=
  match ws with
  | [] => None
  | w :: ws' =>
    match last_write ws' i with
    | Some d => Some d
    | None => if fst w =? i then Some (snd w) else None
    end
  end.

(** A sequence of writes [self[n] = val], in order. *)
Definition write_all (fuel : nat) (s : t) (ws : list (Z * D)) : t :=
  fold_left (fun s w => fst (setitem fuel s (fst w) (snd w))) ws s.

(** A global id the registry decodes. *)
Definition known_id (g : Z) : Prop := exists d, decode_block g = Some d.

(** The representation invariant. *)
Record inv (s : t) : Prop := {
  inv_wf : wf s;
  inv_palette : forall p, palette s = Some p ->
    4 <= bits s <= 8 /\ Z.of_nat (length p) <= 2 ^ bits s /\
    NoDup p /\ Forall known_id p;
  inv_direct : palette s = None -> bits s = max_bits;
  inv_cells : forall n, 0 <= n < 4096 ->
    exists g, cell_id s n = Ok g /\ known_id g
}.

(** The states a caller can produce from the empty array: by
    [self[n] = val] at any integer [n] (whether or not it raises), by
    [repack()], and by [repack(reserve)] with a positive [reserve]. *)
Inductive reachable : t -> Prop :=
| reach_empty : reachable empty
| reach_setitem fuel s n val :
    reachable s -> (2 <= fuel)%nat -> reachable (fst (setitem fuel s n val))
| reach_repack fuel s :
    reachable s -> (1 <= fuel)%nat -> reachable (fst (repack fuel s None))
| reach_reserve fuel s r :
    reachable s -> (1 <= fuel)%nat -> 0 < r ->
    reachable (fst (repack fuel s (Some r))).

End Ops.

End BlockArray.

(** ** LightArray *)

Module LightArray.

(** [LightArray.empty] *)
Definition empty : list Z := replicate 2048 0.

(** [LightArray.__getitem__] at an integer index *)
Definition getitem (data : list Z) (n : Z) : result Z :=
  let idx := n / 2 in
  let off := n mod 2 in
  if off =? 0 then let! w := py_get data idx in Ok (Z.land w 15)
  else let! w := py_get data idx in Ok (Z.shiftr w 4).

(** [LightArray.__setitem__] *)
Definition setitem (data : list Z) (n val : Z) : result (list Z) :=
  let idx := n / 2 in
  let off := n mod 2 in
  if off =? 0 then
    let! w := py_get data idx in py_set data idx (Z.lor (Z.land w 240) val)
  else
    let! w := py_get data idx in
    py_set data idx (Z.lor (Z.land w 15) (Z.shiftl val 4)).

(** [LightArray.__getitem__] at a slice, lines 151-152 *)
Fixpoint getitems (data : list Z) (os : list Z) : result (list Z) :=
  match os with
  | [] => Ok []
  | o :: os' =>
    let! v := getitem data o in let! vs := getitems data os' in Ok (v :: vs)
  end.

Definition getitem_slice (data : list Z) (sl : slice) : result (list Z) :=
  match slice_indices sl 4096 with
  | Err e => Err e
  | Ok (a, b, c) => getitems data (py_range a b c)
  end.

(** A light array holds 2048 bytes. *)
Definition is_byte (w : Z) : Prop := 0 <= w < 256.

Record wf (data : list Z) : Prop := {
  wf_length : length data = 2048%nat;
  wf_bytes : Forall is_byte data
}.

End LightArray.

(** ** A concrete registry: descriptors are the global ids below 2^16 *)

Module Ids.

Definition known (g : Z) : option Z :=
  if (0 <=? g) && (g <? 65536) then Some g else None.

#[export] Instance block_map : BlockMap Z :=
  {| encode_block := known; decode_block := known; max_bits := 16 |}.

#[export] Instance set_order : PySet Z := {| set_of := remove_dups |}.

End Ids.


(** * Proofs *)

Import BlockArray.

(** ** Python indexing *)

Section PyList.
Context {A : Type}.
Implicit Types (l : list A) (i : Z) (k : nat).

Lemma py_norm_nonneg l i :
  0 <= i < Z.of_nat (length l) -> py_norm l i = Some (Z.to_nat i).
Proof.
  intros Hi. unfold py_norm.
  destruct (Z.leb_spec 0 i), (Z.ltb_spec i (Z.of_nat (length l))); simpl;
    try lia; reflexivity.
Qed.

Lemma py_norm_neg l i :
  - Z.of_nat (length l) <= i < 0 ->
  py_norm l i = Some (Z.to_nat (i + Z.of_nat (length l))).
Proof.
  intros Hi. unfold py_norm.
  destruct (Z.leb_spec 0 i); simpl; try lia.
  destruct (Z.leb_spec (- Z.of_nat (length l)) i), (Z.ltb_spec i 0); simpl;
    try lia; reflexivity.
Qed.

Lemma py_norm_out l i :
  ~ (- Z.of_nat (length l) <= i < Z.of_nat (length l)) -> py_norm l i = None.
Proof.
  intros Hi. unfold py_norm.
  destruct (Z.leb_spec 0 i), (Z.ltb_spec i (Z.of_nat (length l))),
    (Z.leb_spec (- Z.of_nat (length l)) i), (Z.ltb_spec i 0); simpl;
    try lia; reflexivity.
Qed.

Lemma py_norm_shift l i :
  - Z.of_nat (length l) <= i < 0 ->
  py_norm l i = py_norm l (i + Z.of_nat (length l)).
Proof.
  intros Hi. rewrite py_norm_neg by lia.
  rewrite py_norm_nonneg by lia. reflexivity.
Qed.

Lemma py_norm_length l l' i :
  length l = length l' -> py_norm l i = py_norm l' i.
Proof. intros Hl. unfold py_norm. rewrite Hl. reflexivity. Qed.

Lemma py_get_nonneg l i x :
  0 <= i -> l !! Z.to_nat i = Some x -> py_get l i = Ok x.
Proof.
  intros Hi Hx. unfold py_get.
  rewrite py_norm_nonneg by (apply lookup_lt_Some in Hx; lia).
  rewrite Hx. reflexivity.
Qed.

Lemma py_get_out l i :
  ~ (- Z.of_nat (length l) <= i < Z.of_nat (length l)) ->
  py_get l i = Err IndexError.
Proof. intros Hi. unfold py_get. rewrite py_norm_out by exact Hi. reflexivity. Qed.

Lemma py_get_Ok_nonneg l i x :
  0 <= i -> py_get l i = Ok x -> l !! Z.to_nat i = Some x.
Proof.
  intros Hi. unfold py_get, py_norm.
  destruct (Z.leb_spec 0 i); simpl; try lia.
  destruct (Z.ltb_spec i (Z.of_nat (length l))); simpl.
  - destruct (l !! Z.to_nat i); simpl; congruence.
  - destruct (Z.leb_spec (- Z.of_nat (length l)) i), (Z.ltb_spec i 0); simpl;
      try lia; discriminate.
Qed.
End PyList.

(** ** Words and bits *)

Lemma mask_ones b : Z.shiftl 1 b - 1 = Z.ones b.
Proof. unfold Z.ones. lia. Qed.

Lemma word_ones : 2 ^ 64 - 1 = Z.ones 64.
Proof. reflexivity. Qed.

Lemma is_word_bits w : is_word w <-> forall j, 64 <= j -> Z.testbit w j = false.
Proof.
  unfold is_word. split.
  - intros [Hlo Hhi] j Hj.
    destruct (Z.eq_dec w 0) as [->|Hne]; [apply Z.testbit_0_l|].
    apply Z.bits_above_log2; [lia|].
    assert (Z.log2 w < 64) by (apply Z.log2_lt_pow2; lia). lia.
  - intros Hb.
    assert (Hw : w = w mod 2 ^ 64).
    { apply Z.bits_inj'. intros j Hj.
      rewrite Z.testbit_mod_pow2 by lia.
      destruct (Z.ltb_spec j 64); simpl; [reflexivity|]. apply Hb. lia. }
    rewrite Hw. apply Z.mod_pos_bound. lia.
Qed.

Ltac bitwise :=
  repeat first
    [ rewrite Z.lor_spec | rewrite Z.land_spec
    | rewrite Z.lnot_spec by lia | rewrite Z.shiftl_spec by lia
    | rewrite Z.shiftr_spec by lia | rewrite Z.testbit_ones by lia ].

Ltac splits := repeat match goal with |- _ /\ _ => split end.

Ltac cases_cmp :=
  repeat match goal with
    | |- context [?a <? ?b] => destruct (Z.ltb_spec a b)
    | |- context [?a <=? ?b] => destruct (Z.leb_spec a b)
    end; simpl; try lia.

Lemma low_word_bits w b off v j :
  0 <= off -> 0 <= b -> 0 <= j ->
  Z.testbit (Z.lor (Z.land w (Z.land (2 ^ 64 - 1)
                      (Z.lnot (Z.shiftl (Z.shiftl 1 b - 1) off))))
                   (Z.land (Z.land (2 ^ 64 - 1) (Z.shiftl (Z.shiftl 1 b - 1) off))
                      (Z.shiftl v off))) j
  = (j <? 64) && (if (off <=? j) && (j <? off + b)
                  then Z.testbit v (j - off) else Z.testbit w j).
Proof.
  intros Hoff Hb Hj. rewrite mask_ones, word_ones. bitwise.
  cases_cmp; btauto.
Qed.

Lemma high_word_bits w b off1 v j :
  0 <= off1 -> 0 <= b -> 0 <= j ->
  Z.testbit (Z.lor (Z.land w (Z.lnot (Z.shiftr (Z.shiftl 1 b - 1) off1)))
                   (Z.land (Z.shiftr (Z.shiftl 1 b - 1) off1) (Z.shiftr v off1))) j
  = if j + off1 <? b then Z.testbit v (j + off1) else Z.testbit w j.
Proof.
  intros Hoff Hb Hj. rewrite mask_ones. bitwise.
  cases_cmp; btauto.
Qed.

Lemma span_geometry b n :
  1 <= b <= 64 -> 0 <= n < 4096 ->
  0 <= b * n / 64 /\ (b * (n + 1) - 1) / 64 < 64 * b /\
  0 <= (b * n) mod 64 < 64 /\
  b * n = 64 * (b * n / 64) + (b * n) mod 64 /\
  (((b * (n + 1) - 1) / 64 = b * n / 64 /\ (b * n) mod 64 + b <= 64) \/
   ((b * (n + 1) - 1) / 64 = b * n / 64 + 1 /\ 64 < (b * n) mod 64 + b)).
Proof.
  intros Hb Hn.
  assert (Hp : 0 <= b * n) by nia.
  assert (Hq : b * (n + 1) - 1 < 64 * (64 * b)) by nia.
  replace (b * (n + 1) - 1) with (b * n + (b - 1)) in * by lia.
  generalize dependent (b * n). intros p Hp Hq.
  Z.div_mod_to_equations. lia.
Qed.

Lemma gbit_at d q r :
  0 <= r < 64 -> gbit d (64 * q + r) = Z.testbit (default 0 (d !! Z.to_nat q)) r.
Proof.
  intros Hr. unfold gbit.
  replace ((64 * q + r) / 64) with q by (Z.div_mod_to_equations; lia).
  replace ((64 * q + r) mod 64) with r by (Z.div_mod_to_equations; lia).
  reflexivity.
Qed.

Lemma wf_lookup s i :
  wf s -> 0 <= i < 64 * bits s ->
  exists w, data s !! Z.to_nat i = Some w /\ is_word w.
Proof.
  intros [Hb Hl Hw] Hi.
  destruct (lookup_lt_is_Some_2 (data s) (Z.to_nat i)) as [w Hw0]; [lia|].
  exists w. split; [exact Hw0|].
  rewrite Forall_lookup in Hw. eapply Hw; eauto.
Qed.

Lemma field_spec s n :
  wf s -> 0 <= n < 4096 ->
  exists v, field s n = Ok v /\
    forall j, 0 <= j ->
      Z.testbit v j = (j <? bits s) && gbit (data s) (bits s * n + j).
Proof.
  intros Hwf Hn. pose proof (wf_bits _ Hwf) as Hb.
  destruct (span_geometry (bits s) n Hb Hn) as (H0 & H1 & Hoff & Hp & Hc).
  unfold field.
  set (idx0 := bits s * n / 64) in *. set (off0 := (bits s * n) mod 64) in *.
  set (idx1 := (bits s * (n + 1) - 1) / 64) in *.
  destruct (wf_lookup s idx0 Hwf) as (w0 & Hw0 & Hword0); [lia|].
  rewrite (py_get_nonneg _ _ _ H0 Hw0). simpl.
  destruct Hc as [[He Hfit]|[He Hspill]].
  - rewrite He, Z.eqb_refl. simpl. eexists; split; [reflexivity|].
    intros j Hj. rewrite mask_ones. bitwise.
    destruct (Z.ltb_spec j (bits s)); simpl; [|btauto].
    rewrite Hp. replace (64 * idx0 + off0 + j) with (64 * idx0 + (off0 + j)) by lia.
    rewrite gbit_at by lia. rewrite Hw0. simpl.
    replace (j + off0) with (off0 + j) by lia. cases_cmp. btauto.
  - destruct (Z.eqb_spec idx0 idx1) as [Heq|_]; [lia|].
    destruct (wf_lookup s idx1 Hwf) as (w1 & Hw1 & Hword1); [lia|].
    rewrite (py_get_nonneg (data s) idx1 w1) by (lia || exact Hw1). simpl.
    eexists; split; [reflexivity|].
    intros j Hj. rewrite mask_ones. bitwise.
    destruct (Z.ltb_spec j (bits s)); simpl; [|btauto].
    rewrite Hp. destruct (Z_lt_ge_dec (off0 + j) 64).
    + replace (64 * idx0 + off0 + j) with (64 * idx0 + (off0 + j)) by lia.
      rewrite gbit_at by lia. rewrite Hw0. simpl.
      rewrite (Z.testbit_neg_r w1) by lia.
      replace (j + off0) with (off0 + j) by lia. cases_cmp. btauto.
    + replace (64 * idx0 + off0 + j) with (64 * idx1 + (off0 + j - 64)) by lia.
      rewrite gbit_at by lia. rewrite Hw1. simpl.
      apply is_word_bits with (j := j + off0) in Hword0; [|lia].
      rewrite Hword0. replace (j - (64 - off0)) with (off0 + j - 64) by lia.
      cases_cmp. btauto.
Qed.

(** ** The store *)

Lemma py_aug_Ok f (l : list Z) i k w :
  py_norm l i = Some k -> l !! k = Some w ->
  py_aug f l i = Ok (<[k := f w]> l).
Proof.
  intros Hk Hw. unfold py_aug, py_get, py_set. rewrite Hk, Hw. reflexivity.
Qed.

Lemma py_aug_Ok2 g (l : list Z) i k w x :
  py_norm l i = Some k -> l !! k = Some w ->
  py_aug g (<[k := x]> l) i = Ok (<[k := g x]> l).
Proof.
  intros Hk Hw.
  rewrite (py_aug_Ok g _ i k x).
  - rewrite list_insert_insert_eq. reflexivity.
  - rewrite <- Hk. apply py_norm_length, length_insert.
  - apply list_lookup_insert_eq. eapply lookup_lt_Some; eauto.
Qed.

Lemma gbit_cases d k :
  0 <= k -> exists q r, k = 64 * q + r /\ 0 <= q /\ 0 <= r < 64 /\
    gbit d k = Z.testbit (default 0 (d !! Z.to_nat q)) r.
Proof.
  intros Hk. exists (k / 64), (k mod 64).
  repeat split; try (Z.div_mod_to_equations; lia).
Qed.

Lemma store_spec s n v :
  wf s -> 0 <= n < 4096 ->
  exists d', store s n v = (with_data s d', Ok tt) /\ wf (with_data s d') /\
    forall k, 0 <= k ->
      gbit d' k = if (bits s * n <=? k) && (k <? bits s * n + bits s)
                  then Z.testbit v (k - bits s * n) else gbit (data s) k.
Proof.
  intros Hwf Hn. pose proof (wf_bits _ Hwf) as Hb.
  destruct (span_geometry (bits s) n Hb Hn) as (H0 & H1 & Hoff & Hp & Hc).
  unfold store.
  set (idx0 := bits s * n / 64) in *. set (off0 := (bits s * n) mod 64) in *.
  set (idx1 := (bits s * (n + 1) - 1) / 64) in *.
  destruct (wf_lookup s idx0 Hwf) as (w0 & Hw0 & Hword0); [lia|].
  assert (Hk0 : py_norm (data s) idx0 = Some (Z.to_nat idx0)).
  { apply py_norm_nonneg. rewrite (wf_length _ Hwf). lia. }
  rewrite (py_aug_Ok _ _ _ _ _ Hk0 Hw0). cbv beta iota.
  rewrite (py_aug_Ok2 _ _ _ _ _ _ Hk0 Hw0). cbv beta iota.
  set (lo := Z.lor _ _).
  assert (Hlo : forall j, 0 <= j -> Z.testbit lo j =
     (j <? 64) && (if (off0 <=? j) && (j <? off0 + bits s)
                   then Z.testbit v (j - off0) else Z.testbit w0 j)).
  { intros j Hj. apply low_word_bits; lia. }
  assert (Hwlo : is_word lo).
  { apply is_word_bits. intros j Hj. rewrite Hlo by lia.
    destruct (Z.ltb_spec j 64); [lia|reflexivity]. }
  clearbody lo.
  destruct Hc as [[He Hfit]|[He Hspill]].
  - rewrite He, Z.eqb_refl. eexists. split; [reflexivity|]. split.
    + constructor; simpl; [exact Hb| |].
      * rewrite length_insert. apply Hwf.
      * apply Forall_insert; [apply Hwf|exact Hwlo].
    + intros k Hk. destruct (gbit_cases (<[Z.to_nat idx0:=lo]> (data s)) k Hk)
        as (q & r & -> & Hq & Hr & ->).
      rewrite gbit_at by lia.
      destruct (Z.eq_dec q idx0) as [->|Hne].
      * rewrite list_lookup_insert_eq by (eapply lookup_lt_Some; eauto).
        rewrite Hw0. simpl. rewrite Hlo by lia. rewrite Hp.
        replace (64 * idx0 + r - (64 * idx0 + off0)) with (r - off0) by lia.
        cases_cmp; reflexivity.
      * rewrite list_lookup_insert_ne by lia.
        rewrite Hp. cases_cmp; reflexivity.
  - destruct (Z.eqb_spec idx0 idx1) as [Heq|_]; [lia|].
    destruct (wf_lookup s idx1 Hwf) as (w1 & Hw1 & Hword1); [lia|].
    set (d2 := <[Z.to_nat idx0:=lo]> (data s)).
    assert (Hk1 : py_norm d2 idx1 = Some (Z.to_nat idx1)).
    { apply py_norm_nonneg. unfold d2. rewrite length_insert, (wf_length _ Hwf). lia. }
    assert (Hw1' : d2 !! Z.to_nat idx1 = Some w1).
    { unfold d2. rewrite list_lookup_insert_ne by lia. exact Hw1. }
    rewrite (py_aug_Ok _ _ _ _ _ Hk1 Hw1'). cbv beta iota.
    rewrite (py_aug_Ok2 _ _ _ _ _ _ Hk1 Hw1'). cbv beta iota.
    set (hi := Z.lor _ _).
    assert (Hhi : forall j, 0 <= j -> Z.testbit hi j =
       if j + (64 - off0) <? bits s then Z.testbit v (j + (64 - off0))
       else Z.testbit w1 j).
    { intros j Hj. apply high_word_bits; lia. }
    assert (Hwhi : is_word hi).
    { apply is_word_bits. intros j Hj. rewrite Hhi by lia.
      destruct (Z.ltb_spec (j + (64 - off0)) (bits s)); [lia|].
      apply is_word_bits; assumption. }
    clearbody hi.
    eexists. split; [reflexivity|]. split.
    + constructor; simpl; [exact Hb| |].
      * unfold d2. rewrite !length_insert. apply Hwf.
      * unfold d2. repeat apply Forall_insert; try assumption. apply Hwf.
    + intros k Hk. destruct (gbit_cases (<[Z.to_nat idx1:=hi]> d2) k Hk)
        as (q & r & -> & Hq & Hr & ->).
      rewrite gbit_at by lia. unfold d2.
      destruct (Z.eq_dec q idx1) as [->|Hne1].
      * rewrite list_lookup_insert_eq
          by (rewrite length_insert; eapply lookup_lt_Some; eauto).
        rewrite Hw1. simpl. rewrite Hhi by lia. rewrite Hp.
        replace (64 * idx1 + r - (64 * idx0 + off0)) with (r + (64 - off0)) by lia.
        cases_cmp; reflexivity.
      * rewrite list_lookup_insert_ne by lia.
        destruct (Z.eq_dec q idx0) as [->|Hne0].
        -- rewrite list_lookup_insert_eq by (eapply lookup_lt_Some; eauto).
           rewrite Hw0. simpl. rewrite Hlo by lia. rewrite Hp.
           replace (64 * idx0 + r - (64 * idx0 + off0)) with (r - off0) by lia.
           cases_cmp; reflexivity.
        -- rewrite list_lookup_insert_ne by lia.
           rewrite Hp. cases_cmp; reflexivity.
Qed.

Lemma small_bits v b j : 0 <= v < 2 ^ b -> b <= j -> Z.testbit v j = false.
Proof.
  intros Hv Hj. destruct (Z.eq_dec v 0) as [->|Hne]; [apply Z.testbit_0_l|].
  assert (0 <= b) by (destruct (Z_lt_ge_dec b 0); [rewrite Z.pow_neg_r in Hv; lia|lia]).
  apply Z.bits_above_log2; [lia|].
  assert (Z.log2 v < b) by (apply Z.log2_lt_pow2; lia). lia.
Qed.

Lemma bits_small v b :
  0 <= b -> (forall j, b <= j -> Z.testbit v j = false) -> 0 <= v < 2 ^ b.
Proof.
  intros Hb Hv.
  assert (Hw : v = v mod 2 ^ b).
  { apply Z.bits_inj'. intros j Hj.
    rewrite Z.testbit_mod_pow2 by lia.
    destruct (Z.ltb_spec j b); simpl; [reflexivity|]. apply Hv. lia. }
  rewrite Hw. apply Z.mod_pos_bound. lia.
Qed.

Lemma field_range s n v :
  wf s -> 0 <= n < 4096 -> field s n = Ok v -> 0 <= v < 2 ^ bits s.
Proof.
  intros Hwf Hn Hv. destruct (field_spec s n Hwf Hn) as (v' & Hv' & Hbits).
  assert (v' = v) by congruence. subst v'.
  apply bits_small; [pose proof (wf_bits _ Hwf); lia|].
  intros j Hj. rewrite Hbits by (pose proof (wf_bits _ Hwf); lia).
  destruct (Z.ltb_spec j (bits s)); [lia|reflexivity].
Qed.

Lemma store_ok s n v :
  wf s -> 0 <= n < 4096 -> 0 <= v < 2 ^ bits s ->
  exists s', store s n v = (s', Ok tt) /\ wf s' /\
    bits s' = bits s /\ palette s' = palette s /\
    field s' n = Ok v /\
    forall m, 0 <= m < 4096 -> m <> n -> field s' m = field s m.
Proof.
  intros Hwf Hn Hv. pose proof (wf_bits _ Hwf) as Hb.
  destruct (store_spec s n v Hwf Hn) as (d' & Hst & Hwf' & Hbits).
  exists (with_data s d'). repeat split; try apply Hwf'; try exact Hst.
  - destruct (field_spec _ n Hwf' Hn) as (v' & Hv' & Hbits').
    rewrite Hv'. f_equal. apply Z.bits_inj'. intros j Hj.
    rewrite Hbits' by exact Hj. simpl.
    destruct (Z.ltb_spec j (bits s)); simpl.
    + rewrite Hbits by lia.
      replace (bits s * n + j - bits s * n) with j by lia.
      cases_cmp; reflexivity.
    + symmetry. eapply small_bits; eauto.
  - intros m Hm Hne.
    destruct (field_spec _ m Hwf' Hm) as (v1 & Hv1 & Hbits1).
    destruct (field_spec _ m Hwf Hm) as (v2 & Hv2 & Hbits2).
    rewrite Hv1, Hv2. f_equal. apply Z.bits_inj'. intros j Hj.
    rewrite Hbits1, Hbits2 by exact Hj. simpl.
    destruct (Z.ltb_spec j (bits s)); simpl; [|reflexivity].
    rewrite Hbits by lia.
    assert (bits s * m + bits s <= bits s * n \/ bits s * n + bits s <= bits s * m) by nia.
    cases_cmp; reflexivity.
Qed.

Lemma gbit_zero k i : gbit (replicate k 0) i = false.
Proof.
  unfold gbit. destruct (replicate k 0 !! Z.to_nat (i / 64)) as [w|] eqn:Hw; simpl.
  - apply lookup_replicate in Hw as [-> _]. apply Z.testbit_0_l.
  - apply Z.testbit_0_l.
Qed.

Lemma wf_zero b pal :
  1 <= b <= 64 ->
  wf {| data := replicate (Z.to_nat (64 * b)) 0; bits := b; palette := pal |}.
Proof.
  intros Hb. constructor; simpl.
  - exact Hb.
  - rewrite length_replicate. lia.
  - apply Forall_replicate. unfold is_word. lia.
Qed.

Lemma field_zero b pal n :
  1 <= b <= 64 -> 0 <= n < 4096 ->
  field {| data := replicate (Z.to_nat (64 * b)) 0; bits := b; palette := pal |} n
  = Ok 0.
Proof.
  intros Hb Hn.
  destruct (field_spec _ n (wf_zero b pal Hb) Hn) as (v & Hv & Hbits).
  rewrite Hv. f_equal. apply Z.bits_inj'. intros j Hj.
  rewrite Hbits by exact Hj. simpl. rewrite gbit_zero, Z.testbit_0_l.
  apply andb_false_r.
Qed.

(** Indices outside [0, 4096) *)

Lemma py_get_shift {A} (l : list A) i :
  - Z.of_nat (length l) <= i < 0 -> py_get l i = py_get l (i + Z.of_nat (length l)).
Proof. intros Hi. unfold py_get. rewrite py_norm_shift by exact Hi. reflexivity. Qed.

Lemma py_aug_shift f (l : list Z) i :
  - Z.of_nat (length l) <= i < 0 ->
  py_aug f l i = py_aug f l (i + Z.of_nat (length l)).
Proof.
  intros Hi. unfold py_aug, py_get, py_set.
  rewrite py_norm_shift by exact Hi. reflexivity.
Qed.

Lemma py_aug_length f (l l' : list Z) i :
  py_aug f l i = Ok l' -> length l' = length l.
Proof.
  unfold py_aug, py_get, py_set. destruct (py_norm l i) as [k|]; [|discriminate].
  destruct (l !! k); simpl; [|discriminate].
  intros [= <-]. apply length_insert.
Qed.

Lemma py_aug_out f (l : list Z) i :
  ~ (- Z.of_nat (length l) <= i < Z.of_nat (length l)) ->
  py_aug f l i = Err IndexError.
Proof. intros Hi. unfold py_aug. rewrite py_get_out by exact Hi. reflexivity. Qed.

Lemma span_shift b n :
  (b * (n + 4096)) / 64 = b * n / 64 + 64 * b /\
  (b * (n + 4096 + 1) - 1) / 64 = (b * (n + 1) - 1) / 64 + 64 * b /\
  (b * (n + 4096)) mod 64 = (b * n) mod 64.
Proof.
  replace (b * (n + 4096)) with (b * n + (64 * b) * 64) by lia.
  replace (b * (n + 4096 + 1) - 1) with (b * (n + 1) - 1 + (64 * b) * 64) by lia.
  rewrite !Z.div_add, Z.mod_add by lia. auto.
Qed.

Lemma span_negative b n :
  1 <= b <= 64 -> -4096 <= n < 0 ->
  - (64 * b) <= b * n / 64 < 0 /\ - (64 * b) <= (b * (n + 1) - 1) / 64 < 0.
Proof.
  intros Hb Hn.
  assert (- (64 * b) * 64 <= b * n) by nia.
  assert (b * n <= b * (n + 1) - 1 < 0) by nia.
  Z.div_mod_to_equations. lia.
Qed.

Lemma span_outside b n :
  1 <= b <= 64 -> ~ (-4096 <= n < 4096) ->
  ~ (- (64 * b) <= b * n / 64 < 64 * b).
Proof.
  intros Hb Hn.
  assert (b * n < - (64 * b) * 64 \/ (64 * b) * 64 <= b * n) by nia.
  Z.div_mod_to_equations. lia.
Qed.

Lemma field_negative s n :
  wf s -> -4096 <= n < 0 -> field s n = field s (n + 4096).
Proof.
  intros Hwf Hn. pose proof (wf_bits _ Hwf) as Hb.
  pose proof (wf_length _ Hwf) as Hl.
  destruct (span_shift (bits s) n) as (E0 & E1 & E2).
  destruct (span_negative (bits s) n Hb Hn) as (N0 & N1).
  unfold field. rewrite E0, E1, E2, <- Hl.
  rewrite <- !py_get_shift by lia.
  replace (bits s * n / 64 + Z.of_nat (length (data s)) =?
           (bits s * (n + 1) - 1) / 64 + Z.of_nat (length (data s)))
    with (bits s * n / 64 =? (bits s * (n + 1) - 1) / 64); [reflexivity|].
  destruct (Z.eqb_spec (bits s * n / 64) ((bits s * (n + 1) - 1) / 64));
    symmetry; [apply Z.eqb_eq|apply Z.eqb_neq]; lia.
Qed.

Lemma field_outside s n :
  wf s -> ~ (-4096 <= n < 4096) -> field s n = Err IndexError.
Proof.
  intros Hwf Hn. pose proof (wf_bits _ Hwf) as Hb.
  pose proof (wf_length _ Hwf) as Hl.
  pose proof (span_outside (bits s) n Hb Hn) as Ho.
  unfold field. rewrite (py_get_out (data s) (bits s * n / 64)) by lia.
  destruct (_ =? _); reflexivity.
Qed.

Lemma store_negative s n v :
  wf s -> -4096 <= n < 0 -> store s n v = store s (n + 4096) v.
Proof.
  intros Hwf Hn. pose proof (wf_bits _ Hwf) as Hb.
  pose proof (wf_length _ Hwf) as Hl.
  destruct (span_shift (bits s) n) as (E0 & E1 & E2).
  destruct (span_negative (bits s) n Hb Hn) as (N0 & N1).
  unfold store. rewrite E0, E1, E2.
  set (idx0 := bits s * n / 64) in *.
  set (idx1 := (bits s * (n + 1) - 1) / 64) in *.
  replace (idx0 + 64 * bits s =? idx1 + 64 * bits s) with (idx0 =? idx1)
    by (destruct (Z.eqb_spec idx0 idx1); symmetry;
        [apply Z.eqb_eq|apply Z.eqb_neq]; lia).
  rewrite <- Hl.
  rewrite <- (py_aug_shift _ (data s) idx0) by lia.
  destruct (py_aug _ (data s) idx0) as [d1|e] eqn:H1; [|reflexivity].
  apply py_aug_length in H1.
  rewrite <- H1. rewrite <- (py_aug_shift _ d1 idx0) by lia.
  destruct (py_aug _ d1 idx0) as [d2|e] eqn:H2; [|reflexivity].
  apply py_aug_length in H2.
  destruct (idx0 =? idx1); [reflexivity|].
  rewrite <- H2. rewrite <- (py_aug_shift _ d2 idx1) by lia.
  destruct (py_aug _ d2 idx1) as [d3|e] eqn:H3; [|reflexivity].
  apply py_aug_length in H3.
  rewrite <- H3. rewrite <- (py_aug_shift _ d3 idx1) by lia.
  reflexivity.
Qed.

Lemma store_outside s n v :
  wf s -> ~ (-4096 <= n < 4096) -> store s n v = (s, Err IndexError).
Proof.
  intros Hwf Hn. pose proof (wf_bits _ Hwf) as Hb.
  pose proof (wf_length _ Hwf) as Hl.
  pose proof (span_outside (bits s) n Hb Hn) as Ho.
  unfold store. rewrite py_aug_out by lia. reflexivity.
Qed.

(** ** Palette lookups *)

Lemma py_index_Some p g i :
  py_index p g = Some i ->
  0 <= i < Z.of_nat (length p) /\ p !! Z.to_nat i = Some g.
Proof.
  revert i. induction p as [|y p IH]; intros i; simpl; [discriminate|].
  destruct (Z.eqb_spec y g) as [->|Hne].
  - intros [= <-]. split; [lia|reflexivity].
  - destruct (py_index p g) as [i'|]; simpl; [|discriminate].
    intros [= <-]. destruct (IH i' eq_refl) as [Hr Hl]. split; [lia|].
    replace (Z.to_nat (Z.succ i')) with (S (Z.to_nat i')) by lia. exact Hl.
Qed.

Lemma py_index_None p g : py_index p g = None -> g ∉ p.
Proof.
  induction p as [|y p IH]; simpl; intros Hi Hin.
  - inversion Hin.
  - destruct (Z.eqb_spec y g) as [->|Hne]; [discriminate|].
    destruct (py_index p g); [discriminate|].
    apply elem_of_cons in Hin as [->|Hin]; [congruence|]. exact (IH eq_refl Hin).
Qed.

Lemma py_index_elem p g : g ∈ p -> exists i, py_index p g = Some i.
Proof.
  intros Hin. destruct (py_index p g) as [i|] eqn:Hi; [eauto|].
  exfalso. exact (py_index_None _ _ Hi Hin).
Qed.

Lemma py_get_elem (p : list Z) v g : py_get p v = Ok g -> g ∈ p.
Proof.
  unfold py_get. destruct (py_norm p v) as [k|]; [|discriminate].
  destruct (p !! k) as [x|] eqn:Hx; simpl; [|discriminate].
  intros [= <-]. eapply list_elem_of_lookup_2; eauto.
Qed.

Lemma py_get_app_l {A} (p q : list A) v x :
  0 <= v -> py_get p v = Ok x -> py_get (p ++ q) v = Ok x.
Proof.
  intros Hv Hx. apply py_get_Ok_nonneg in Hx; [|exact Hv].
  apply py_get_nonneg; [exact Hv|]. apply lookup_app_l_Some. exact Hx.
Qed.

Lemma py_get_app_last (p : list Z) g :
  py_get (p ++ [g]) (Z.of_nat (length p)) = Ok g.
Proof.
  apply py_get_nonneg; [lia|]. rewrite Nat2Z.id.
  rewrite lookup_app_r by lia. rewrite Nat.sub_diag. reflexivity.
Qed.

(** Distinct integers in [0, n) are at most [n]. *)
Lemma nodup_range_length (l : list Z) n :
  0 <= n -> NoDup l -> (forall x, x ∈ l -> 0 <= x < n) ->
  Z.of_nat (length l) <= n.
Proof.
  intros Hn Hnd Hr.
  assert (Hsub : l ⊆+ seqZ 0 n).
  { apply NoDup_submseteq; [exact Hnd|].
    intros x Hx. apply elem_of_seqZ. specialize (Hr x Hx). lia. }
  apply submseteq_length in Hsub. rewrite length_seqZ in Hsub. lia.
Qed.

(** ** Cells *)

Lemma store_cell s n v :
  wf s -> 0 <= n < 4096 -> 0 <= v < 2 ^ bits s ->
  exists s', store s n v = (s', Ok tt) /\ wf s' /\
    bits s' = bits s /\ palette s' = palette s /\
    cell_id s' n = match palette s with
                   | Some p => py_get p v
                   | None => Ok v
                   end /\
    forall m, 0 <= m < 4096 -> m <> n -> cell_id s' m = cell_id s m.
Proof.
  intros Hwf Hn Hv.
  destruct (store_ok s n v Hwf Hn Hv) as (s' & Hst & Hwf' & Hb & Hp & Hsame & Hother).
  exists s'. splits; try assumption.
  - unfold cell_id. rewrite Hsame, Hp. reflexivity.
  - intros m Hm Hne. unfold cell_id. rewrite (Hother m Hm Hne), Hp. reflexivity.
Qed.

Lemma cell_id_field s n g :
  cell_id s n = Ok g ->
  exists v, field s n = Ok v /\
    match palette s with
    | Some p => py_get p v = Ok g
    | None => v = g
    end.
Proof.
  unfold cell_id. destruct (field s n) as [v|]; simpl; [|discriminate].
  intros Hg. exists v. split; [reflexivity|].
  destruct (palette s); congruence.
Qed.

Lemma cell_id_negative s n :
  wf s -> -4096 <= n < 0 -> cell_id s n = cell_id s (n + 4096).
Proof. intros. unfold cell_id. rewrite field_negative by assumption. reflexivity. Qed.

Lemma cell_id_outside s n :
  wf s -> ~ (-4096 <= n < 4096) -> cell_id s n = Err IndexError.
Proof. intros. unfold cell_id. rewrite field_outside by assumption. reflexivity. Qed.

Lemma cell_id_with_palette s p q n g :
  wf s -> 0 <= n < 4096 -> palette s = Some p ->
  cell_id s n = Ok g -> cell_id (with_palette s (p ++ q)) n = Ok g.
Proof.
  intros Hwf Hn Hp Hg. destruct (cell_id_field _ _ _ Hg) as (v & Hv & Hl).
  rewrite Hp in Hl. unfold cell_id.
  change (field (with_palette s (p ++ q)) n) with (field s n).
  rewrite Hv. simpl. apply py_get_app_l; [|exact Hl].
  apply (field_range s n v Hwf Hn Hv).
Qed.

Lemma log2_up_fits n : 0 < n -> n <= 2 ^ Z.log2_up n.
Proof. intros Hn. apply Z.log2_log2_up_spec. exact Hn. Qed.

Lemma wf_with_palette s p : wf s -> wf (with_palette s p).
Proof. intros [Hb Hl Hw]. constructor; assumption. Qed.

Lemma Forall2_NoDup {A B} (R : A -> B -> Prop) l k :
  (forall x x' y, R x y -> R x' y -> x = x') ->
  Forall2 R l k -> NoDup l -> NoDup k.
Proof.
  intros Hinj Hall. induction Hall as [|x y l k Hxy Hall IH]; intros Hnd.
  - constructor.
  - apply NoDup_cons in Hnd as [Hfresh Hnd]. apply NoDup_cons. split; [|auto].
    intros Hy. apply list_elem_of_lookup in Hy as [i Hi].
    destruct (Forall2_lookup_r _ _ _ _ _ Hall Hi) as (x' & Hx' & HR).
    apply Hfresh. rewrite (Hinj x x' y Hxy HR).
    eapply list_elem_of_lookup_2; eauto.
Qed.

(** ** Slices and ranges *)

Lemma py_range_unit a b : py_range a b 1 = seqZ a (b - a).
Proof.
  unfold py_range. change (0 <? 1) with true. cbv iota.
  replace ((b - a + 1 - 1) / 1) with (b - a) by (rewrite Z.div_1_r; lia).
  rewrite <- (Z.add_0_r a) at 2. rewrite <- fmap_add_seqZ.
  apply list_fmap_ext. intros i x _. lia.
Qed.

Lemma slice_indices_plain a b :
  0 <= a <= 4096 -> 0 <= b <= 4096 ->
  slice_indices (mk_slice (Some a) (Some b) None) 4096 = Ok (a, b, 1).
Proof.
  intros Ha Hb. unfold slice_indices, clamp_bound. simpl.
  destruct (Z.ltb_spec a 0), (Z.ltb_spec 4096 a), (Z.ltb_spec b 0),
    (Z.ltb_spec 4096 b); try lia; reflexivity.
Qed.

Lemma seqZ_split a m b :
  a <= m <= b -> seqZ a (b - a) = seqZ a (m - a) ++ seqZ m (b - m).
Proof.
  intros H. replace (b - a) with ((m - a) + (b - m)) by lia.
  rewrite seqZ_app by lia. do 2 f_equal. lia.
Qed.

Section Registry.
Context {D : Type} {bm : BlockMap D} {ps : PySet D}.
Hypothesis Hreg : registry_ok bm.
Hypothesis Hset : set_ok ps.

Lemma known_encoded d g : encode_block d = Some g -> known_id g.
Proof. intros He. exists d. eapply decode_encode; eauto. Qed.

Lemma known_range g : known_id g -> 0 <= g < 2 ^ max_bits.
Proof. intros [d Hd]. eapply id_range; [exact Hreg|]. eapply encode_decode; eauto. Qed.

Lemma getitem_cell s n g d :
  cell_id s n = Ok g -> decode_block g = Some d -> getitem s n = Ok d.
Proof. intros Hg Hd. unfold getitem. rewrite Hg. simpl. rewrite Hd. reflexivity. Qed.

Lemma inv_getitem s n :
  inv s -> 0 <= n < 4096 ->
  exists g d, cell_id s n = Ok g /\ decode_block g = Some d /\ getitem s n = Ok d.
Proof.
  intros Hinv Hn. destruct (inv_cells _ Hinv n Hn) as (g & Hg & d & Hd).
  exists g, d. splits; try assumption. eapply getitem_cell; eauto.
Qed.

Lemma getitem_same_cells s s' n :
  cell_id s' n = cell_id s n -> getitem s' n = getitem s n.
Proof. intros He. unfold getitem. rewrite He. reflexivity. Qed.

Lemma inv_empty : inv empty.
Proof.
  assert (Hwf : wf empty) by (apply (wf_zero 4 (Some [0])); lia).
  constructor.
  - exact Hwf.
  - intros p [= <-]. simpl. repeat split; try lia.
    + apply NoDup_singleton.
    + apply Forall_singleton. exact (air_known Hreg).
  - discriminate.
  - intros n Hn. exists 0. split; [|exact (air_known Hreg)].
    unfold cell_id. change empty with
      {| data := replicate (Z.to_nat (64 * 4)) 0; bits := 4; palette := Some [0] |}.
    rewrite field_zero by lia. reflexivity.
Qed.

(** ** One write of a value the current encoding can hold *)

Lemma setitem_stored k s n val g :
  wf s -> 0 <= n < 4096 -> encode_block val = Some g ->
  match palette s with
  | Some p => g ∈ p /\ Z.of_nat (length p) <= 2 ^ bits s
  | None => 0 <= g < 2 ^ bits s
  end ->
  exists s', setitem (S k) s n val = (s', Ok tt) /\ wf s' /\
    bits s' = bits s /\ palette s' = palette s /\
    cell_id s' n = Ok g /\
    forall m, 0 <= m < 4096 -> m <> n -> cell_id s' m = cell_id s m.
Proof.
  intros Hwf Hn He Hfit.
  change (setitem (S k) s n val)
    with (setitem_body (repack_body (setitem k)) s n val).
  unfold setitem_body, translate. rewrite He.
  destruct (palette s) as [p|] eqn:Hp.
  - destruct Hfit as [Hin Hlen].
    destruct (py_index_elem _ _ Hin) as [i Hi]. rewrite Hi.
    destruct (py_index_Some _ _ _ Hi) as [Hir Hil].
    destruct (store_cell s n i Hwf Hn ltac:(lia))
      as (s' & Hst & Hwf' & Hb & Hp' & Hsame & Hother).
    exists s'. splits; try assumption; try congruence.
    rewrite Hsame, Hp. apply py_get_nonneg; [lia|exact Hil].
  - destruct (store_cell s n g Hwf Hn Hfit)
      as (s' & Hst & Hwf' & Hb & Hp' & Hsame & Hother).
    exists s'. splits; try assumption; try congruence.
    rewrite Hsame, Hp. reflexivity.
Qed.

(** ** Reloading: [self[:] = values] *)

Lemma setitems_load k values b pal os :
  NoDup os ->
  (forall o, o ∈ os -> 0 <= o < 4096 /\
     exists v g, py_get values o = Ok v /\ encode_block v = Some g /\
       match pal with
       | Some p => g ∈ p /\ Z.of_nat (length p) <= 2 ^ b
       | None => 0 <= g < 2 ^ b
       end) ->
  forall s, wf s -> bits s = b -> palette s = pal ->
  exists s', setitems (setitem (S k)) s values os = (s', Ok tt) /\ wf s' /\
    bits s' = b /\ palette s' = pal /\
    (forall o, o ∈ os -> exists v g,
       py_get values o = Ok v /\ encode_block v = Some g /\ cell_id s' o = Ok g) /\
    (forall m, 0 <= m < 4096 -> m ∉ os -> cell_id s' m = cell_id s m).
Proof.
  induction os as [|o os IH]; intros Hnd Hos s Hwf Hb Hp.
  - exists s. splits; try assumption; try reflexivity.
    intros o Ho. inversion Ho.
  - apply NoDup_cons in Hnd as [Hfresh Hnd].
    destruct (Hos o ltac:(left)) as (Ho & v & g & Hv & He & Hfit).
    destruct (setitem_stored k s o v g Hwf Ho He)
      as (s1 & Hst & Hwf1 & Hb1 & Hp1 & Hsame & Hother).
    { rewrite Hp, Hb. exact Hfit. }
    destruct (IH Hnd (fun o' Ho' => Hos o' (list_elem_of_further _ _ _ Ho'))
                s1 Hwf1 ltac:(congruence) ltac:(congruence))
      as (s' & Hst' & Hwf' & Hb' & Hp' & Hin' & Hout').
    exists s'. cbn [setitems]. rewrite Hv. cbv beta iota. rewrite Hst.
    splits; try assumption.
    + intros o' Ho'. apply elem_of_cons in Ho' as [->|Ho'].
      * exists v, g. splits; try assumption.
        rewrite (Hout' o Ho Hfresh). exact Hsame.
      * apply Hin'. exact Ho'.
    + intros m Hm Hnot. apply not_elem_of_cons in Hnot as [Hne Hnot].
      rewrite (Hout' m Hm Hnot). apply Hother; assumption.
Qed.

(** ** Reading everything: [self[:]] and iteration *)

Lemma getitems_Ok s os :
  (forall o, o ∈ os -> exists d, getitem s o = Ok d) ->
  exists vs, getitems s os = Ok vs /\
    Forall2 (fun o d => getitem s o = Ok d) os vs.
Proof.
  induction os as [|o os IH]; intros Hos; simpl.
  - exists []. split; [reflexivity|constructor].
  - destruct (Hos o ltac:(left)) as [d Hd].
    destruct (IH (fun o' Ho' => Hos o' (list_elem_of_further _ _ _ Ho')))
      as (vs & Hvs & Hall).
    exists (d :: vs). rewrite Hd, Hvs. split; [reflexivity|].
    constructor; assumption.
Qed.

Lemma getitems_ext s s' os :
  (forall o, o ∈ os -> getitem s' o = getitem s o) ->
  getitems s' os = getitems s os.
Proof.
  induction os as [|o os IH]; intros Hos; simpl; [reflexivity|].
  rewrite (Hos o ltac:(left)).
  rewrite (IH (fun o' Ho' => Hos o' (list_elem_of_further _ _ _ Ho'))).
  reflexivity.
Qed.

Lemma getslice_Ok s :
  inv s ->
  exists vs, getslice s = Ok vs /\ length vs = 4096%nat /\
    forall n, 0 <= n < 4096 ->
      exists d, py_get vs n = Ok d /\ getitem s n = Ok d.
Proof.
  intros Hinv. unfold getslice.
  destruct (getitems_Ok s (seqZ 0 4096)) as (vs & Hvs & Hall).
  { intros o Ho. apply elem_of_seqZ in Ho.
    destruct (inv_getitem s o Hinv ltac:(lia)) as (g & d & _ & _ & Hd). eauto. }
  exists vs. split; [exact Hvs|]. split.
  - rewrite <- (Forall2_length _ _ _ Hall), length_seqZ. reflexivity.
  - intros n Hn.
    destruct (Forall2_lookup_l _ _ _ (Z.to_nat n) n Hall) as (d & Hd & Hget).
    { rewrite lookup_seqZ_lt by lia. f_equal. lia. }
    exists d. split; [|exact Hget]. apply py_get_nonneg; [lia|exact Hd].
Qed.

Lemma getitem_outside s n :
  wf s -> ~ (-4096 <= n < 4096) -> getitem s n = Err IndexError.
Proof. intros. unfold getitem. rewrite cell_id_outside by assumption. reflexivity. Qed.

Lemma iter_from_getitems s k i :
  inv s -> 0 <= i -> i + Z.of_nat k = 4096 ->
  iter_from (S k) s i = getitems s (seqZ i (Z.of_nat k)).
Proof.
  intros Hinv. revert i. induction k as [|k IH]; intros i Hi Hk.
  - cbn [iter_from]. rewrite getitem_outside; [reflexivity|apply Hinv|lia].
  - rewrite seqZ_cons by lia.
    change (iter_from (S (S k)) s i) with
      (match getitem s i with
       | Ok v => let! vs := iter_from (S k) s (i + 1) in Ok (v :: vs)
       | Err IndexError => Ok []
       | Err e => Err e
       end).
    destruct (inv_getitem s i Hinv ltac:(lia)) as (g & d & _ & _ & Hd).
    replace (Z.pred (Z.of_nat (S k))) with (Z.of_nat k) by lia.
    replace (Z.succ i) with (i + 1) by lia.
    cbn [getitems]. rewrite Hd. cbn [rbind].
    rewrite IH by lia. reflexivity.
Qed.

Lemma iter_getslice s : inv s -> iter s = getslice s.
Proof.
  intros Hinv. unfold iter, getslice.
  change 4097%nat with (S (Z.to_nat 4096)).
  rewrite iter_from_getitems by (try assumption; lia).
  rewrite Z2Nat.id by lia. reflexivity.
Qed.

Lemma new_encoding_cases b pal :
  0 <= b ->
  (b <= 8 /\ new_encoding b pal = (Z.max 4 b, Some pal)) \/
  (8 < b /\ new_encoding b pal = (max_bits, None)).
Proof.
  intros Hb. unfold new_encoding.
  destruct (Z.leb_spec b 8); [left|right]; split; try lia; try reflexivity.
  destruct (Z.ltb_spec b 4); f_equal; lia.
Qed.

Lemma getitem_inv_cell s n d :
  getitem s n = Ok d -> exists g, cell_id s n = Ok g /\ decode_block g = Some d.
Proof.
  unfold getitem. destruct (cell_id s n) as [g|]; simpl; [|discriminate].
  destruct (decode_block g) as [d'|] eqn:Hd; simpl; [|discriminate].
  intros [= <-]. eauto.
Qed.

(** ** [repack] *)

Lemma repack_to_spec k s b pal' :
  inv s -> 1 <= b <= 64 ->
  match pal' with
  | Some p =>
    4 <= b <= 8 /\ Z.of_nat (length p) <= 2 ^ b /\ NoDup p /\
    Forall known_id p /\
    forall n, 0 <= n < 4096 -> exists g, cell_id s n = Ok g /\ g ∈ p
  | None => b = max_bits
  end ->
  exists s', repack_to (setitem (S k)) s b pal' = (s', Ok tt) /\ inv s' /\
    (forall n, 0 <= n < 4096 -> cell_id s' n = cell_id s n) /\
    (bits s = b /\ s' = s \/ bits s <> b /\ bits s' = b /\ palette s' = pal').
Proof.
  intros Hinv Hb Hpal. unfold repack_to.
  destruct (Z.eqb_spec (bits s) b) as [Hsame|Hdiff].
  { exists s. splits; auto. }
  destruct (getslice_Ok s Hinv) as (values & Hvalues & Hlen & Hget).
  rewrite Hvalues. unfold setslice.
  set (s0 := {| data := replicate (Z.to_nat (64 * b)) 0; bits := b; palette := pal' |}).
  assert (Hcell : forall n, 0 <= n < 4096 -> exists g d,
            cell_id s n = Ok g /\ decode_block g = Some d /\
            encode_block d = Some g /\ py_get values n = Ok d).
  { intros n Hn. destruct (inv_getitem s n Hinv Hn) as (g & d & Hg & Hd & Hgd).
    destruct (Hget n Hn) as (d' & Hd' & Hgd').
    assert (d' = d) by congruence. subst d'.
    exists g, d. splits; try assumption. eapply encode_decode; eauto. }
  destruct (setitems_load k values b pal' (seqZ 0 4096)) with (s := s0)
    as (s' & Hst & Hwf' & Hb' & Hp' & Hin & _).
  - apply NoDup_seqZ.
  - intros o Ho. apply elem_of_seqZ in Ho. split; [lia|].
    destruct (Hcell o ltac:(lia)) as (g & d & Hg & Hd & He & Hv).
    exists d, g. splits; try assumption.
    destruct pal' as [p|].
    + destruct Hpal as (_ & Hlenp & _ & _ & Hmem). split; [|exact Hlenp].
      destruct (Hmem o ltac:(lia)) as (g' & Hg' & Hin).
      assert (g' = g) by congruence. subst g'. exact Hin.
    + subst b. apply known_range. exists d. exact Hd.
  - apply wf_zero. exact Hb.
  - reflexivity.
  - reflexivity.
  - assert (Hsamecells : forall n, 0 <= n < 4096 -> cell_id s' n = cell_id s n).
    { intros n Hn. destruct (Hin n) as (v & g & Hv & He & Hg).
      { apply elem_of_seqZ. lia. }
      destruct (Hcell n Hn) as (g0 & d0 & Hg0 & Hd0 & He0 & Hv0).
      assert (v = d0) by congruence. subst v.
      assert (g = g0) by congruence. subst g. congruence. }
    exists s'. splits; try assumption.
    + constructor.
      * exact Hwf'.
      * intros p Hp. rewrite Hp' in Hp. rewrite Hp in Hpal. rewrite Hb'.
        destruct Hpal as (H1 & H2 & H3 & H4 & _). auto.
      * intros Hp. rewrite Hp' in Hp. rewrite Hp in Hpal. congruence.
      * intros n Hn. rewrite (Hsamecells n Hn).
        destruct (Hcell n Hn) as (g0 & d0 & Hg0 & Hd0 & _).
        exists g0. split; [exact Hg0|]. exists d0. exact Hd0.
    + right. auto.
Qed.

Lemma repack_with_spec k s pal plen :
  inv s -> 0 < plen ->
  (Z.log2_up plen <= 8 ->
   Z.of_nat (length pal) <= plen /\ NoDup pal /\ Forall known_id pal /\
   forall n, 0 <= n < 4096 -> exists g, cell_id s n = Ok g /\ g ∈ pal) ->
  exists s', repack_with (setitem (S k)) s pal plen = (s', Ok tt) /\ inv s' /\
    (forall n, 0 <= n < 4096 -> cell_id s' n = cell_id s n) /\
    (bits s = fst (new_encoding (Z.log2_up plen) pal) /\ s' = s \/
     bits s <> fst (new_encoding (Z.log2_up plen) pal) /\
     bits s' = fst (new_encoding (Z.log2_up plen) pal) /\
     palette s' = snd (new_encoding (Z.log2_up plen) pal)).
Proof.
  intros Hinv Hplen Hpal. unfold repack_with, ceil_log2.
  destruct (Z.leb_spec plen 0); [lia|].
  pose proof (Z.log2_up_nonneg plen) as Hnn.
  pose proof (max_bits_range Hreg) as Hmax.
  destruct (new_encoding_cases (Z.log2_up plen) pal Hnn) as [[Hle ->]|[Hgt ->]];
    simpl; apply (repack_to_spec k s); try assumption; try lia; try reflexivity.
  destruct (Hpal Hle) as (Hlen & Hnd & Hkn & Hmem). splits; try assumption; try lia.
  pose proof (log2_up_fits plen Hplen).
  assert (2 ^ Z.log2_up plen <= 2 ^ Z.max 4 (Z.log2_up plen))
    by (apply Z.pow_le_mono_r; lia).
  lia.
Qed.

Lemma repack_reserve_spec k s r :
  inv s -> 0 < r ->
  exists s', repack (S k) s (Some r) = (s', Ok tt) /\ inv s' /\
    (forall n, 0 <= n < 4096 -> cell_id s' n = cell_id s n) /\
    match palette s with
    | None => s' = s
    | Some p =>
      let e := new_encoding (Z.log2_up (Z.of_nat (length p) + r)) p in
      bits s = fst e /\ s' = s \/
      bits s <> fst e /\ bits s' = fst e /\ palette s' = snd e
    end.
Proof.
  intros Hinv Hr. unfold repack, repack_body.
  destruct (palette s) as [p|] eqn:Hp.
  - apply repack_with_spec; [exact Hinv|lia|].
    intros _. destruct (inv_palette _ Hinv p Hp) as (_ & _ & Hnd & Hkn).
    splits; try assumption; try lia.
    intros n Hn. destruct (inv_cells _ Hinv n Hn) as (g & Hg & _).
    exists g. split; [exact Hg|].
    destruct (cell_id_field _ _ _ Hg) as (v & _ & Hv). rewrite Hp in Hv.
    eapply py_get_elem; eauto.
  - exists s. splits; auto.
Qed.

Lemma encode_all_Ok vs :
  (forall v, v ∈ vs -> exists g, encode_block v = Some g) ->
  exists pal, encode_all vs = Ok pal /\
    Forall2 (fun v g => encode_block v = Some g) vs pal.
Proof.
  induction vs as [|v vs IH]; intros Hvs; simpl.
  - exists []. split; [reflexivity|constructor].
  - destruct (Hvs v ltac:(left)) as [g Hg].
    destruct (IH (fun v' Hv' => Hvs v' (list_elem_of_further _ _ _ Hv')))
      as (pal & Hpal & Hall).
    exists (g :: pal). rewrite Hg. simpl. rewrite Hpal. split; [reflexivity|].
    constructor; assumption.
Qed.


Lemma getslice_elem s vs v :
  inv s -> getslice s = Ok vs -> v ∈ vs ->
  exists n, 0 <= n < 4096 /\ getitem s n = Ok v.
Proof.
  intros Hinv Hvs Hv.
  destruct (getslice_Ok s Hinv) as (vs' & Hvs' & Hlen & Hget).
  assert (vs' = vs) by congruence. subst vs'.
  apply list_elem_of_lookup in Hv as [i Hi].
  pose proof (lookup_lt_Some _ _ _ Hi) as Hlt.
  destruct (Hget (Z.of_nat i) ltac:(lia)) as (d & Hd & Hgd).
  apply py_get_Ok_nonneg in Hd; [|lia]. rewrite Nat2Z.id in Hd.
  exists (Z.of_nat i). split; [lia|]. congruence.
Qed.

(** The palette [repack()] computes from the cells. *)
Lemma contents_palette s vs :
  inv s -> getslice s = Ok vs ->
  exists pal, encode_all (set_of vs) = Ok pal /\
    0 < Z.of_nat (length pal) /\ NoDup pal /\ Forall known_id pal /\
    (forall n, 0 <= n < 4096 -> exists g, cell_id s n = Ok g /\ g ∈ pal) /\
    Forall2 (fun v g => encode_block v = Some g) (set_of vs) pal.
Proof.
  intros Hinv Hvs.
  destruct (encode_all_Ok (set_of vs)) as (pal & Hpal & Hall).
  { intros v Hv. apply (proj1 (set_of_elem Hset vs v)) in Hv.
    destruct (getslice_elem s vs v Hinv Hvs Hv) as (n & Hn & Hget).
    destruct (getitem_inv_cell _ _ _ Hget) as (g & _ & Hd).
    exists g. eapply encode_decode; eauto. }
  assert (Hcells : forall n, 0 <= n < 4096 ->
            exists g, cell_id s n = Ok g /\ g ∈ pal).
  { intros n Hn. destruct (inv_getitem s n Hinv Hn) as (g & d & Hg & Hd & Hgd).
    exists g. split; [exact Hg|].
    destruct (getslice_Ok s Hinv) as (vs' & Hvs' & Hlen & Hget).
    assert (vs' = vs) by congruence. subst vs'.
    destruct (Hget n Hn) as (d' & Hd' & Hgd').
    assert (d' = d) by congruence. subst d'.
    assert (Hin : d ∈ set_of vs).
    { apply (proj2 (set_of_elem Hset vs d)). apply py_get_Ok_nonneg in Hd'; [|lia].
      eapply list_elem_of_lookup_2; eauto. }
    apply list_elem_of_lookup in Hin as [i Hi].
    destruct (Forall2_lookup_l _ _ _ _ _ Hall Hi) as (g' & Hg' & He).
    assert (encode_block d = Some g) by (eapply encode_decode; eauto).
    assert (g' = g) by congruence. subst g'.
    eapply list_elem_of_lookup_2; eauto. }
  exists pal. splits; try assumption.
  - destruct (Hcells 0 ltac:(lia)) as (g & _ & Hin).
    destruct pal; [inversion Hin|simpl; lia].
  - eapply Forall2_NoDup; [|exact Hall|apply (set_of_nodup Hset)].
    intros x x' y Hx Hx'. simpl in *.
    apply (decode_encode Hreg) in Hx. apply (decode_encode Hreg) in Hx'. congruence.
  - apply Forall_forall. intros g Hg.
    apply list_elem_of_lookup in Hg as [i Hi].
    destruct (Forall2_lookup_r _ _ _ _ _ Hall Hi) as (v & _ & He).
    eapply known_encoded; eauto.
Qed.

Lemma repack_none_spec k s :
  inv s ->
  exists s', repack (S k) s None = (s', Ok tt) /\ inv s' /\
    (forall n, 0 <= n < 4096 -> cell_id s' n = cell_id s n) /\
    exists vs pal, getslice s = Ok vs /\ encode_all (set_of vs) = Ok pal /\
      let e := new_encoding (Z.log2_up (Z.of_nat (length pal))) pal in
      bits s = fst e /\ s' = s \/
      bits s <> fst e /\ bits s' = fst e /\ palette s' = snd e.
Proof.
  intros Hinv.
  destruct (getslice_Ok s Hinv) as (vs & Hvs & _).
  destruct (contents_palette s vs Hinv Hvs)
    as (pal & Hpal & Hlen & Hnd & Hkn & Hcells & _).
  destruct (repack_with_spec k s pal (Z.of_nat (length pal)) Hinv Hlen)
    as (s' & Hrp & Hinv' & Hsame & Hcase).
  { intros _. splits; try assumption. lia. }
  exists s'. splits; try assumption.
  - unfold repack, repack_body. rewrite iter_getslice by exact Hinv.
    rewrite Hvs. cbn [rbind]. rewrite Hpal. exact Hrp.
  - exists vs, pal. splits; try assumption.
Qed.

(** ** [__setitem__] *)

Lemma translate_spec k s val g :
  inv s -> encode_block val = Some g ->
  exists s1 v, translate (repack (S k)) s val = (s1, Ok v) /\ inv s1 /\
    (forall n, 0 <= n < 4096 -> cell_id s1 n = cell_id s n) /\
    0 <= v < 2 ^ bits s1 /\
    match palette s1 with
    | Some p1 => py_get p1 v = Ok g
    | None => v = g
    end /\
    match palette s with
    | None => s1 = s
    | Some p =>
      match py_index p g with
      | Some _ => s1 = s
      | None =>
        let e := new_encoding (Z.log2_up (Z.of_nat (length p) + 1)) p in
        bits s1 = fst e /\
        palette s1 = option_map (fun p1 => p1 ++ [g]) (snd e)
      end
    end.
Proof.
  intros Hinv He. pose proof (known_encoded _ _ He) as Hkn.
  pose proof (known_range _ Hkn) as Hrange.
  unfold translate. rewrite He.
  destruct (palette s) as [p|] eqn:Hp.
  2:{ exists s, g. rewrite Hp. splits; auto;
        try rewrite (inv_direct _ Hinv Hp); lia. }
  destruct (inv_palette _ Hinv p Hp) as (Hbits & Hlen & Hnd & Hknown).
  destruct (py_index p g) as [i|] eqn:Hi.
  { destruct (py_index_Some _ _ _ Hi) as [Hir Hil].
    exists s, i. rewrite Hp. splits; auto; try lia.
    apply py_get_nonneg; [lia|exact Hil]. }
  apply py_index_None in Hi.
  destruct (repack_reserve_spec k s 1 Hinv ltac:(lia))
    as (s1 & Hrp & Hinv1 & Hsame & Hcase).
  rewrite Hrp. rewrite Hp in Hcase. cbv zeta in Hcase.
  pose proof (Z.log2_up_nonneg (Z.of_nat (length p) + 1)) as Hnn.
  destruct (new_encoding_cases (Z.log2_up (Z.of_nat (length p) + 1)) p Hnn)
    as [[Hle Henc]|[Hgt Henc]]; rewrite Henc in *; simpl in Hcase; cbv zeta; simpl.
  - (* the palette stays and has room for one more *)
    assert (Hs1 : palette s1 = Some p /\
                  bits s1 = Z.max 4 (Z.log2_up (Z.of_nat (length p) + 1))).
    { destruct Hcase as [[Hb ->]|(_ & Hb & Hp1)]; auto. }
    destruct Hs1 as [Hp1 Hb1]. rewrite Hp1.
    assert (Hroom : Z.of_nat (length p) + 1 <= 2 ^ bits s1).
    { rewrite Hb1. pose proof (log2_up_fits (Z.of_nat (length p) + 1) ltac:(lia)).
      assert (2 ^ Z.log2_up (Z.of_nat (length p) + 1)
              <= 2 ^ Z.max 4 (Z.log2_up (Z.of_nat (length p) + 1)))
        by (apply Z.pow_le_mono_r; lia).
      lia. }
    assert (Hlast : Z.of_nat (length (p ++ [g])) - 1 = Z.of_nat (length p))
      by (rewrite length_app; simpl; lia).
    eexists _, _. split; [reflexivity|]. rewrite Hlast.
    splits; simpl; try assumption; try lia; try reflexivity.
    + destruct (inv_palette _ Hinv1 p Hp1) as (Hbits1 & _).
      constructor.
      * apply wf_with_palette, Hinv1.
      * intros q [= <-]. simpl. splits; try lia.
        -- apply NoDup_app. splits; [exact Hnd| |apply NoDup_singleton].
           intros x Hx Hx'. apply list_elem_of_singleton in Hx'. congruence.
        -- apply Forall_app. split; [exact Hknown|]. apply Forall_singleton, Hkn.
      * discriminate.
      * intros n Hn. destruct (inv_cells _ Hinv1 n Hn) as (g' & Hg' & Hkn').
        exists g'. split; [|exact Hkn'].
        apply cell_id_with_palette; try assumption. apply Hinv1.
    + intros n Hn. rewrite <- (Hsame n Hn).
      destruct (inv_cells _ Hinv1 n Hn) as (g' & Hg' & _). rewrite Hg'.
      apply cell_id_with_palette; try assumption. apply Hinv1.
    + apply py_get_app_last.
  - (* more than 256 entries: direct mode *)
    destruct Hcase as [[Hb ->]|(_ & Hb & Hp1)].
    + (* the width cannot already be the direct one *)
      exfalso.
      assert (Hbig : 2 ^ 8 < Z.of_nat (length p) + 1).
      { destruct (Z_lt_ge_dec (2 ^ 8) (Z.of_nat (length p) + 1)); [assumption|].
        assert (Z.log2_up (Z.of_nat (length p) + 1) <= 8)
          by (apply Z.log2_up_le_pow2; lia).
        lia. }
      assert (Hall : Z.of_nat (length (g :: p)) <= 2 ^ bits s).
      { apply nodup_range_length; [lia| |].
        - apply NoDup_cons. split; assumption.
        - intros x Hx. rewrite Hb. apply elem_of_cons in Hx as [->|Hx]; [exact Hrange|].
          apply known_range. rewrite Forall_forall in Hknown. auto. }
      assert (2 ^ bits s <= 2 ^ 8) by (apply Z.pow_le_mono_r; lia).
      simpl in Hall. lia.
    + exists s1, g. rewrite Hp1, Hb. splits; auto; lia.
Qed.

Lemma inv_store s n v g :
  inv s -> 0 <= n < 4096 -> 0 <= v < 2 ^ bits s ->
  match palette s with
  | Some p => py_get p v = Ok g
  | None => v = g
  end ->
  known_id g ->
  exists s', store s n v = (s', Ok tt) /\ inv s' /\
    bits s' = bits s /\ palette s' = palette s /\
    cell_id s' n = Ok g /\
    forall m, 0 <= m < 4096 -> m <> n -> cell_id s' m = cell_id s m.
Proof.
  intros Hinv Hn Hv Hg Hkn.
  destruct (store_cell s n v (inv_wf _ Hinv) Hn Hv)
    as (s' & Hst & Hwf' & Hb & Hp & Hsame & Hother).
  assert (Hcell : cell_id s' n = Ok g).
  { rewrite Hsame. destruct (palette s); congruence. }
  exists s'. splits; try assumption.
  constructor.
  - exact Hwf'.
  - intros p Hp'. rewrite Hb. apply (inv_palette _ Hinv). congruence.
  - intros Hp'. rewrite Hb. apply (inv_direct _ Hinv). congruence.
  - intros m Hm. destruct (Z.eq_dec m n) as [->|Hne].
    + exists g. split; assumption.
    + rewrite (Hother m Hm Hne). apply (inv_cells _ Hinv m Hm).
Qed.

Lemma setitem_unfold k s n val :
  setitem (S (S k)) s n val =
  match translate (repack (S k)) s val with
  | (s1, Err e) => (s1, Err e)
  | (s1, Ok v) => store s1 n v
  end.
Proof. reflexivity. Qed.

Lemma setitem_unknown k s n val :
  encode_block val = None -> setitem (S k) s n val = (s, Err RegistryError).
Proof.
  intros He.
  change (setitem (S k) s n val)
    with (setitem_body (repack_body (setitem k)) s n val).
  unfold setitem_body, translate. rewrite He. reflexivity.
Qed.

(** A write inside [0, 4096) of a value the registry encodes. *)
Lemma setitem_in_range k s n val g :
  inv s -> 0 <= n < 4096 -> encode_block val = Some g ->
  exists s', setitem (S (S k)) s n val = (s', Ok tt) /\ inv s' /\
    cell_id s' n = Ok g /\
    (forall m, 0 <= m < 4096 -> m <> n -> cell_id s' m = cell_id s m) /\
    match palette s with
    | None => bits s' = bits s /\ palette s' = None
    | Some p =>
      match py_index p g with
      | Some _ => bits s' = bits s /\ palette s' = Some p
      | None =>
        let e := new_encoding (Z.log2_up (Z.of_nat (length p) + 1)) p in
        bits s' = fst e /\
        palette s' = option_map (fun p1 => p1 ++ [g]) (snd e)
      end
    end.
Proof.
  intros Hinv Hn He.
  destruct (translate_spec k s val g Hinv He)
    as (s1 & v & Htr & Hinv1 & Hsame & Hv & Hg & Hcase).
  destruct (inv_store s1 n v g Hinv1 Hn Hv Hg (known_encoded _ _ He))
    as (s' & Hst & Hinv' & Hb & Hp & Hcell & Hother).
  exists s'. rewrite setitem_unfold, Htr. splits; try assumption.
  - intros m Hm Hne. rewrite (Hother m Hm Hne). apply Hsame, Hm.
  - rewrite Hb, Hp. destruct (palette s) as [p|] eqn:Hps.
    + destruct (py_index p g); [subst s1; auto|exact Hcase].
    + subst s1. auto.
Qed.

(** Python's negative indices address the same cells from the end. *)
Lemma setitem_negative k s n val :
  inv s -> -4096 <= n < 0 ->
  setitem (S (S k)) s n val = setitem (S (S k)) s (n + 4096) val.
Proof.
  intros Hinv Hn. destruct (encode_block val) as [g|] eqn:He.
  - destruct (translate_spec k s val g Hinv He) as (s1 & v & Htr & Hinv1 & _).
    rewrite !setitem_unfold, Htr. apply store_negative; [apply Hinv1|exact Hn].
  - rewrite !setitem_unknown by exact He. reflexivity.
Qed.

(** A write outside [-4096, 4096) raises after the translation. *)
Lemma setitem_outside k s n val g :
  inv s -> ~ (-4096 <= n < 4096) -> encode_block val = Some g ->
  exists s1 v, translate (repack (S k)) s val = (s1, Ok v) /\
    setitem (S (S k)) s n val = (s1, Err IndexError) /\ inv s1 /\
    (forall m, 0 <= m < 4096 -> cell_id s1 m = cell_id s m).
Proof.
  intros Hinv Hn He.
  destruct (translate_spec k s val g Hinv He)
    as (s1 & v & Htr & Hinv1 & Hsame & _).
  exists s1, v. rewrite setitem_unfold, Htr.
  splits; try assumption; try reflexivity.
  apply store_outside; [apply Hinv1|exact Hn].
Qed.

Lemma setitem_inv fuel s n val :
  inv s -> (2 <= fuel)%nat -> inv (fst (setitem fuel s n val)).
Proof.
  intros Hinv Hfuel.
  destruct fuel as [|[|k]]; try lia.
  destruct (encode_block val) as [g|] eqn:He.
  2:{ rewrite setitem_unknown by exact He. exact Hinv. }
  destruct (Z_lt_ge_dec n 0) as [Hneg|Hnn].
  - destruct (Z_le_gt_dec (-4096) n).
    + rewrite setitem_negative by (try assumption; lia).
      destruct (setitem_in_range k s (n + 4096) val g Hinv ltac:(lia) He)
        as (s' & -> & Hinv' & _). exact Hinv'.
    + destruct (setitem_outside k s n val g Hinv ltac:(lia) He)
        as (s1 & v & _ & -> & Hinv1 & _). exact Hinv1.
  - destruct (Z_lt_ge_dec n 4096).
    + destruct (setitem_in_range k s n val g Hinv ltac:(lia) He)
        as (s' & -> & Hinv' & _). exact Hinv'.
    + destruct (setitem_outside k s n val g Hinv ltac:(lia) He)
        as (s1 & v & _ & -> & Hinv1 & _). exact Hinv1.
Qed.

Lemma repack_inv fuel s r :
  inv s -> (1 <= fuel)%nat -> (forall x, r = Some x -> 0 < x) ->
  inv (fst (repack fuel s r)).
Proof.
  intros Hinv Hfuel Hr. destruct fuel as [|k]; [lia|].
  destruct r as [x|].
  - destruct (repack_reserve_spec k s x Hinv (Hr x eq_refl)) as (s' & -> & Hinv' & _).
    exact Hinv'.
  - destruct (repack_none_spec k s Hinv) as (s' & -> & Hinv' & _). exact Hinv'.
Qed.

(** Every reachable state satisfies the invariant. *)
Lemma reachable_inv s : reachable s -> inv s.
Proof.
  induction 1 as [|fuel s n val _ IH Hfuel|fuel s _ IH Hfuel|fuel s r _ IH Hfuel Hr].
  - exact inv_empty.
  - apply setitem_inv; assumption.
  - apply repack_inv; [assumption..|discriminate].
  - apply repack_inv; [assumption..|]. intros x [= <-]. exact Hr.
Qed.

(** ** The claims *)

(** C1. Round trip: in every reachable state, writing descriptor [d] (one
    the registry encodes) at an index in [0, 4096) succeeds, and reading
    that index afterwards returns [d]; this includes the writes that go
    through [repack(reserve=1)] and the switch to direct mode. *)
Theorem setitem_getitem_roundtrip fuel s i d g :
  reachable s -> (2 <= fuel)%nat -> 0 <= i < 4096 ->
  encode_block d = Some g ->
  exists s', setitem fuel s i d = (s', Ok tt) /\ getitem s' i = Ok d.
Proof.
  intros Hs Hfuel Hi He. destruct fuel as [|[|k]]; try lia.
  destruct (setitem_in_range k s i d g (reachable_inv s Hs) Hi He)
    as (s' & Hst & _ & Hcell & _).
  exists s'. split; [exact Hst|].
  eapply getitem_cell; [exact Hcell|]. eapply decode_encode; eauto.
Qed.

(** C2. Value preservation: in every reachable state [repack], with or
    without a (positive) reserve, succeeds and leaves what every index in
    [0, 4096) reads unchanged. *)
Theorem repack_preserves_getitem fuel s r :
  reachable s -> (1 <= fuel)%nat -> (forall x, r = Some x -> 0 < x) ->
  exists s', repack fuel s r = (s', Ok tt) /\
    forall i, 0 <= i < 4096 -> getitem s' i = getitem s i.
Proof.
  intros Hs Hfuel Hr. apply reachable_inv in Hs.
  destruct fuel as [|k]; [lia|]. destruct r as [x|].
  - destruct (repack_reserve_spec k s x Hs (Hr x eq_refl))
      as (s' & Hrp & _ & Hsame & _).
    exists s'. split; [exact Hrp|]. intros i Hi.
    apply getitem_same_cells, Hsame, Hi.
  - destruct (repack_none_spec k s Hs) as (s' & Hrp & _ & Hsame & _).
    exists s'. split; [exact Hrp|]. intros i Hi.
    apply getitem_same_cells, Hsame, Hi.
Qed.

(** C7. Idempotence: in every reachable state [repack()] succeeds, and a
    second [repack()] right after it returns the state of the first
    unchanged: same width, same palette, same words. *)
Theorem repack_idempotent fuel1 fuel2 s :
  reachable s -> (1 <= fuel1)%nat -> (1 <= fuel2)%nat ->
  exists s1, repack fuel1 s None = (s1, Ok tt) /\
    repack fuel2 s1 None = (s1, Ok tt).
Proof.
  intros Hs Hf1 Hf2. apply reachable_inv in Hs.
  destruct fuel1 as [|k1]; [lia|]. destruct fuel2 as [|k2]; [lia|].
  destruct (repack_none_spec k1 s Hs)
    as (s1 & Hrp & Hinv1 & Hsame & vs & pal & Hvs & Hpal & Hcase).
  exists s1. split; [exact Hrp|].
  assert (Hvs1 : getslice s1 = Ok vs).
  { rewrite <- Hvs. apply getitems_ext. intros o Ho. apply elem_of_seqZ in Ho.
    apply getitem_same_cells, Hsame. lia. }
  assert (Hbits : bits s1 = fst (new_encoding (Z.log2_up (Z.of_nat (length pal))) pal)).
  { cbv zeta in Hcase. destruct Hcase as [[Hb ->]|(_ & Hb & _)]; assumption. }
  unfold repack, repack_body. rewrite iter_getslice by exact Hinv1.
  rewrite Hvs1. cbn [rbind]. rewrite Hpal.
  unfold repack_with, ceil_log2.
  destruct (contents_palette s vs Hs Hvs) as (pal' & Hpal' & Hlen & _).
  assert (pal' = pal) by congruence. subst pal'.
  destruct (Z.leb_spec (Z.of_nat (length pal)) 0); [lia|].
  destruct (new_encoding _ pal) as [b' pal'] eqn:Henc. simpl in Hbits.
  unfold repack_to. rewrite Hbits, Z.eqb_refl. reflexivity.
Qed.

(** C9. Storage size: in every reachable state the storage holds
    [64 * bits] words, which is [ceil(4096 * bits / 64)]; the empty array
    has 256 words at width 4. *)
Theorem storage_length s :
  reachable s ->
  Z.of_nat (length (data s)) = 64 * bits s /\
  64 * bits s = (4096 * bits s + 63) / 64 /\
  length (data empty) = 256%nat /\ bits empty = 4.
Proof.
  intros Hs. apply reachable_inv in Hs. splits.
  - apply (wf_length _ (inv_wf _ Hs)).
  - Z.div_mod_to_equations. lia.
  - reflexivity.
  - reflexivity.
Qed.

(** C10. In every reachable state in indirect mode, the packed field of
    every cell is below the palette length, so the palette lookup of a
    read succeeds. *)
Theorem field_below_palette s p i :
  reachable s -> palette s = Some p -> 0 <= i < 4096 ->
  exists v g, field s i = Ok v /\ 0 <= v < Z.of_nat (length p) /\
    py_get p v = Ok g.
Proof.
  intros Hs Hp Hi. apply reachable_inv in Hs.
  destruct (inv_cells _ Hs i Hi) as (g & Hg & _).
  destruct (cell_id_field _ _ _ Hg) as (v & Hv & Hl). rewrite Hp in Hl.
  exists v, g. splits; try assumption.
  - apply (field_range s i v (inv_wf _ Hs) Hi Hv).
  - pose proof (field_range s i v (inv_wf _ Hs) Hi Hv).
    apply py_get_Ok_nonneg in Hl; [|lia].
    apply lookup_lt_Some in Hl. lia.
Qed.

(** ** Emptiness *)

Lemma no_word_set d :
  existsb (fun w => negb (w =? 0)) d = false -> d = replicate (length d) 0.
Proof.
  induction d as [|w d IH]; simpl; [reflexivity|].
  intros Hd. apply orb_false_iff in Hd as [Hw Hd].
  apply negb_false_iff, Z.eqb_eq in Hw. subst w. f_equal. exact (IH Hd).
Qed.

Lemma field_all_zero s n :
  wf s -> existsb (fun w => negb (w =? 0)) (data s) = false ->
  0 <= n < 4096 -> field s n = Ok 0.
Proof.
  intros Hwf Hz Hn. apply no_word_set in Hz.
  pose proof (wf_length _ Hwf) as Hl. pose proof (wf_bits _ Hwf) as Hb.
  replace (length (data s)) with (Z.to_nat (64 * bits s)) in Hz by lia.
  destruct s as [d b pal]. simpl in *. rewrite Hz. apply field_zero; assumption.
Qed.

Lemma nonzero_cell_not_empty s n g :
  inv s -> 0 <= n < 4096 -> cell_id s n = Ok g -> g <> 0 -> is_empty s = false.
Proof.
  intros Hinv Hn Hg Hne. destruct (cell_id_field _ _ _ Hg) as (v & Hv & Hl).
  unfold is_empty. destruct (palette s) as [p|].
  - apply bool_decide_eq_false. intros ->.
    apply py_get_elem, list_elem_of_singleton in Hl. congruence.
  - subst v. apply negb_false_iff.
    destruct (existsb _ (data s)) eqn:Hz; [reflexivity|].
    rewrite (field_all_zero s n (inv_wf _ Hinv) Hz Hn) in Hv. congruence.
Qed.

Lemma empty_cells_zero s i :
  inv s -> is_empty s = true -> 0 <= i < 4096 -> cell_id s i = Ok 0.
Proof.
  intros Hinv He Hi. unfold is_empty in He.
  destruct (palette s) as [p|] eqn:Hp.
  - apply bool_decide_eq_true in He. subst p.
    destruct (inv_cells _ Hinv i Hi) as (g & Hg & _).
    destruct (cell_id_field _ _ _ Hg) as (v & _ & Hl). rewrite Hp in Hl.
    apply py_get_elem, list_elem_of_singleton in Hl. congruence.
  - apply negb_true_iff in He. unfold cell_id.
    rewrite (field_all_zero s i (inv_wf _ Hinv) He Hi), Hp. reflexivity.
Qed.

(** C8. [is_empty] holds of the empty array; in every reachable state a
    write of a nonzero global id at an index from -4096 to 4095 succeeds
    and [is_empty] fails right after it; and [is_empty] is never wrong
    when it holds: then every cell holds global id 0. *)
Theorem is_empty_sound fuel s n val g i :
  reachable s -> (2 <= fuel)%nat -> -4096 <= n < 4096 ->
  encode_block val = Some g -> g <> 0 -> 0 <= i < 4096 ->
  is_empty empty = true /\
  (exists s', setitem fuel s n val = (s', Ok tt) /\ is_empty s' = false) /\
  (is_empty s = true -> cell_id s i = Ok 0).
Proof.
  intros Hs Hfuel Hn He Hne Hi. apply reachable_inv in Hs. splits.
  - reflexivity.
  - destruct fuel as [|[|k]]; try lia.
    assert (exists n', 0 <= n' < 4096 /\
              setitem (S (S k)) s n val = setitem (S (S k)) s n' val)
      as (n' & Hn' & ->).
    { destruct (Z_lt_ge_dec n 0).
      - exists (n + 4096). split; [lia|].
        apply setitem_negative; [exact Hs|lia].
      - exists n. split; [lia|reflexivity]. }
    destruct (setitem_in_range k s n' val g Hs Hn' He)
      as (s' & Hst & Hinv' & Hcell & _).
    exists s'. split; [exact Hst|].
    eapply nonzero_cell_not_empty; eauto.
  - intros Hempty. apply empty_cells_zero; assumption.
Qed.

(** ** Failing writes *)

(** C4, as the code has it.  A write fails in two ways.  If the registry
    rejects the value, the array is unchanged.  Otherwise the index is
    outside [-4096, 4096) and the write raises [IndexError] after the
    value was translated: no index reads differently afterwards, and the
    array is unchanged when it is in direct mode or the global id is
    already in the palette. *)
Theorem failed_setitem fuel s n val e s' :
  reachable s -> (2 <= fuel)%nat -> setitem fuel s n val = (s', Err e) ->
  (encode_block val = None /\ e = RegistryError /\ s' = s) \/
  (exists g, encode_block val = Some g /\ ~ (-4096 <= n < 4096) /\
     e = IndexError /\
     (forall i, 0 <= i < 4096 -> getitem s' i = getitem s i) /\
     (match palette s with
      | None => True
      | Some p => g ∈ p
      end -> s' = s)).
Proof.
  intros Hs Hfuel Hfail. apply reachable_inv in Hs.
  destruct fuel as [|[|k]]; try lia.
  destruct (encode_block val) as [g|] eqn:He.
  2:{ left. rewrite setitem_unknown in Hfail by exact He.
      injection Hfail as <- <-. auto. }
  right. exists g. split; [reflexivity|].
  assert (Hout : ~ (-4096 <= n < 4096)).
  { intros Hn.
    assert (exists n', 0 <= n' < 4096 /\
              setitem (S (S k)) s n val = setitem (S (S k)) s n' val)
      as (n' & Hn' & Heq).
    { destruct (Z_lt_ge_dec n 0).
      - exists (n + 4096). split; [lia|]. apply setitem_negative; [exact Hs|lia].
      - exists n. split; [lia|reflexivity]. }
    destruct (setitem_in_range k s n' val g Hs Hn' He) as (s2 & Hst & _).
    congruence. }
  destruct (translate_spec k s val g Hs He)
    as (s1 & v & Htr & Hinv1 & Hsame & _ & _ & Hcase).
  rewrite setitem_unfold, Htr in Hfail.
  rewrite store_outside in Hfail by (try apply Hinv1; exact Hout).
  injection Hfail as <- <-. splits; try assumption; try reflexivity.
  - intros i Hi. apply getitem_same_cells, Hsame, Hi.
  - intros Hin. destruct (palette s) as [p|]; [|exact Hcase].
    destruct (py_index_elem _ _ Hin) as [j Hj]. rewrite Hj in Hcase. exact Hcase.
Qed.

(** ** Growth of the palette *)

Lemma py_index_fresh p g : g ∉ p -> py_index p g = None.
Proof.
  intros Hg. destruct (py_index p g) as [i|] eqn:Hi; [|reflexivity].
  destruct (py_index_Some _ _ _ Hi) as [_ Hl].
  exfalso. apply Hg. eapply list_elem_of_lookup_2; eauto.
Qed.

Lemma write_all_snoc fuel s ws w :
  write_all fuel s (ws ++ [w]) =
  fst (setitem fuel (write_all fuel s ws) (fst w) (snd w)).
Proof. unfold write_all. rewrite fold_left_app. reflexivity. Qed.

(** Writing up to 255 distinct nonzero ids into the empty array appends
    them to the palette in order; the width is that of the palette
    length, at least 4. *)
Lemma palette_growth fuel ws :
  (2 <= fuel)%nat ->
  forall gs,
  Forall2 (fun w g => 0 <= fst w < 4096 /\ encode_block (snd w) = Some g) ws gs ->
  NoDup (0 :: gs) -> Z.of_nat (length gs) <= 255 ->
  reachable (write_all fuel empty ws) /\
  palette (write_all fuel empty ws) = Some (0 :: gs) /\
  bits (write_all fuel empty ws) = Z.max 4 (Z.log2_up (1 + Z.of_nat (length gs))).
Proof.
  intros Hfuel. induction ws as [|w ws IH] using rev_ind; intros gs Hall Hnd Hlen.
  - apply Forall2_nil_inv_l in Hall. subst gs.
    splits; [apply reach_empty|reflexivity|reflexivity].
  - apply Forall2_app_inv_l in Hall as (gs' & gl & Hall & Hlast & ->).
    apply Forall2_cons_inv_l in Hlast as (g & gl' & [Hw He] & Hnil & ->).
    apply Forall2_nil_inv_l in Hnil. subst gl'.
    rewrite length_app in Hlen. simpl in Hlen.
    change (0 :: gs' ++ [g]) with ((0 :: gs') ++ [g]) in Hnd.
    apply NoDup_app in Hnd as (Hnd & Hfresh & _).
    destruct (IH gs' Hall Hnd ltac:(lia)) as (Hreach & Hpal & Hbits).
    rewrite write_all_snoc. set (s := write_all fuel empty ws) in *.
    split; [apply reach_setitem; assumption|].
    destruct fuel as [|[|k]]; try lia.
    destruct (setitem_in_range k s (fst w) (snd w) g (reachable_inv s Hreach) Hw He)
      as (s' & -> & _ & _ & _ & Hcase).
    rewrite Hpal in Hcase. rewrite py_index_fresh in Hcase.
    2:{ intros Hin. apply (Hfresh g Hin). apply list_elem_of_singleton. reflexivity. }
    cbv zeta in Hcase.
    assert (Hsmall : Z.log2_up (Z.of_nat (length (0 :: gs')) + 1) <= 8).
    { apply Z.log2_up_le_pow2; simpl length; lia. }
    pose proof (Z.log2_up_nonneg (Z.of_nat (length (0 :: gs')) + 1)) as Hnn.
    destruct (new_encoding_cases _ (0 :: gs') Hnn) as [[_ Henc]|[Hbig _]]; [|lia].
    rewrite Henc in Hcase. destruct Hcase as [Hb Hp]. simpl fst. split.
    + rewrite Hp. reflexivity.
    + rewrite Hb. simpl fst. rewrite length_app. simpl length.
      do 2 f_equal. lia.
Qed.

Lemma write_all_reachable fuel ws s :
  (2 <= fuel)%nat -> reachable s -> reachable (write_all fuel s ws).
Proof.
  intros Hfuel. revert s. induction ws as [|w ws IH]; intros s Hs; [exact Hs|].
  apply IH. apply reach_setitem; assumption.
Qed.

(** C3, as the code has it.  Seventeen writes of distinct nonzero global
    ids into the empty array: after the first [k] of them the palette is
    id 0 followed by the first [k] ids, so it grows from 1 entry to 18;
    the width is 4 after each of the first fifteen writes and 5 after the
    sixteenth and the seventeenth, so it changes once, at the sixteenth
    insertion, where the reserved palette size is 17. *)
Theorem seventeen_writes fuel ws gs k :
  (2 <= fuel)%nat -> length ws = 17%nat ->
  Forall2 (fun w g => 0 <= fst w < 4096 /\ encode_block (snd w) = Some g) ws gs ->
  NoDup gs -> 0 ∉ gs -> (k <= 17)%nat ->
  palette (write_all fuel empty (take k ws)) = Some (0 :: take k gs) /\
  bits (write_all fuel empty (take k ws)) = if (k <? 16)%nat then 4 else 5.
Proof.
  intros Hfuel Hlen Hall Hnd Hzero Hk.
  pose proof (Forall2_length _ _ _ Hall) as Hlen'.
  destruct (palette_growth fuel (take k ws) Hfuel (take k gs)) as (_ & Hp & Hb).
  - apply Forall2_take. exact Hall.
  - apply NoDup_cons. split.
    + intros Hin. apply Hzero. eapply subseteq_take; eauto.
    + eapply sublist_NoDup; [exact Hnd|apply sublist_take].
  - rewrite length_take. lia.
  - split; [exact Hp|]. rewrite Hb, length_take_le by lia.
    do 18 (destruct k as [|k]; [reflexivity|]). lia.
Qed.

(** ** One large id, and the switch to direct mode *)

Lemma repack_none_small k s p :
  inv s -> palette s = Some p -> Z.of_nat (length p) <= 16 -> bits s = 4 ->
  repack (S k) s None = (s, Ok tt).
Proof.
  intros Hinv Hp Hlen Hbits.
  destruct (repack_none_spec k s Hinv)
    as (s' & Hrp & _ & _ & vs & pal & Hvs & Hpal & Hcase).
  destruct (contents_palette s vs Hinv Hvs)
    as (pal' & Hpal' & Hpos & Hnd & _ & _ & Hall).
  assert (pal' = pal) by congruence. subst pal'.
  assert (Hsub : pal ⊆+ p).
  { apply NoDup_submseteq; [exact Hnd|]. intros g Hg.
    apply list_elem_of_lookup in Hg as [j Hj].
    destruct (Forall2_lookup_r _ _ _ _ _ Hall Hj) as (v & Hv & He).
    apply list_elem_of_lookup_2, (proj1 (set_of_elem Hset vs v)) in Hv.
    destruct (getslice_elem s vs v Hinv Hvs Hv) as (n & Hn & Hget).
    destruct (getitem_inv_cell _ _ _ Hget) as (g' & Hg' & Hd).
    assert (g' = g) by (apply (encode_decode Hreg) in Hd; congruence). subst g'.
    destruct (cell_id_field _ _ _ Hg') as (x & _ & Hx). rewrite Hp in Hx.
    eapply py_get_elem; eauto. }
  apply submseteq_length in Hsub.
  assert (Hsmall : Z.log2_up (Z.of_nat (length pal)) <= 4)
    by (apply Z.log2_up_le_pow2; [lia|change (2 ^ 4) with 16; lia]).
  pose proof (Z.log2_up_nonneg (Z.of_nat (length pal))) as Hnn.
  cbv zeta in Hcase.
  destruct (new_encoding_cases _ pal Hnn) as [[_ Henc]|[Hbig _]]; [|lia].
  rewrite Henc in Hcase. simpl in Hcase.
  destruct Hcase as [[_ ->]|[Hne _]]; [exact Hrp|lia].
Qed.

(** C6, as the code has it.  With a direct width of 16, one write of a
    global id of 256 or more into the empty array leaves it in indirect
    mode, palette [0, id] at width 4, and [repack()] then changes
    nothing.  What switches an array to direct mode (no palette, width
    16) is a write of a new id when the palette already has 256
    entries. *)
Theorem large_id_stays_indirect fuel1 fuel2 n val g s p n' val' g' :
  max_bits = 16 -> (2 <= fuel1)%nat -> (1 <= fuel2)%nat ->
  0 <= n < 4096 -> encode_block val = Some g -> 256 <= g ->
  reachable s -> palette s = Some p -> length p = 256%nat ->
  0 <= n' < 4096 -> encode_block val' = Some g' -> g' ∉ p ->
  (exists s1, setitem fuel1 empty n val = (s1, Ok tt) /\
     palette s1 = Some [0; g] /\ bits s1 = 4 /\
     repack fuel2 s1 None = (s1, Ok tt)) /\
  (exists s2, setitem fuel1 s n' val' = (s2, Ok tt) /\
     palette s2 = None /\ bits s2 = 16).
Proof.
  intros Hmax Hf1 Hf2 Hn He Hg Hs Hp Hlen Hn' He' Hfresh.
  destruct fuel1 as [|[|k1]]; try lia. destruct fuel2 as [|k2]; [lia|]. split.
  - destruct (setitem_in_range k1 empty n val g inv_empty Hn He)
      as (s1 & Hst & Hinv1 & _ & _ & Hcase).
    change (palette empty) with (Some [0]) in Hcase. cbv beta iota in Hcase.
    rewrite py_index_fresh in Hcase
      by (intros Hin; apply list_elem_of_singleton in Hin; lia).
    simpl in Hcase. destruct Hcase as [Hb Hpal].
    exists s1. splits; try assumption.
    apply (repack_none_small k2 s1 [0; g]); try assumption. simpl. lia.
  - destruct (setitem_in_range k1 s n' val' g' (reachable_inv s Hs) Hn' He')
      as (s2 & Hst & _ & _ & _ & Hcase).
    rewrite Hp, py_index_fresh in Hcase by exact Hfresh.
    rewrite Hlen in Hcase. simpl in Hcase. destruct Hcase as [Hb Hpal].
    exists s2. splits; try assumption. congruence.
Qed.

(** ** Indices at and beyond the ends *)

Lemma light_past_end data v :
  length data = 2048%nat ->
  LightArray.getitem data 4096 = Err IndexError /\
  LightArray.setitem data 4096 v = Err IndexError.
Proof.
  intros Hlen. unfold LightArray.getitem, LightArray.setitem.
  change (4096 / 2) with 2048. change (4096 mod 2 =? 0) with true.
  cbv beta iota zeta. rewrite py_get_out by lia. split; reflexivity.
Qed.

Lemma light_negative data v :
  length data = 2048%nat ->
  LightArray.getitem data (-1) = LightArray.getitem data 4095 /\
  LightArray.setitem data (-1) v = LightArray.setitem data 4095 v.
Proof.
  intros Hlen. unfold LightArray.getitem, LightArray.setitem, py_set.
  change (-1 / 2) with (-1). change (-1 mod 2 =? 0) with false.
  change (4095 / 2) with 2047. change (4095 mod 2 =? 0) with false.
  cbv beta iota zeta.
  rewrite (py_get_shift data (-1)), (py_norm_shift data (-1)) by lia.
  rewrite Hlen. split; reflexivity.
Qed.

Lemma light_unchecked data n w :
  0 <= n < 4096 -> n mod 2 = 0 -> py_get data (n / 2) = Ok w ->
  LightArray.setitem data n 16 =
  Ok (<[Z.to_nat (n / 2) := Z.lor (Z.land w 240) 16]> data).
Proof.
  intros Hn Heven Hw. unfold LightArray.setitem. rewrite Heven.
  change (0 =? 0) with true. cbv beta iota zeta. rewrite Hw. cbn [rbind].
  assert (0 <= n / 2) by (Z.div_mod_to_equations; lia).
  apply py_get_Ok_nonneg in Hw; [|assumption]. apply lookup_lt_Some in Hw.
  unfold py_set. rewrite py_norm_nonneg by lia. reflexivity.
Qed.

(** C5, as the code has it.  Nothing checks an index: what rejects one
    is the list access.  Index 4096 raises [IndexError] on read and write
    of both arrays, in every state (for a block array write, after the
    value was translated).  Index -1 is Python's last element: it reads
    and writes cell 4095.  [LightArray] does not check the value either:
    16 at an even index is or-ed into the byte as it is. *)
Theorem index_bounds fuel s val g data :
  reachable s -> (2 <= fuel)%nat -> encode_block val = Some g ->
  length data = 2048%nat ->
  getitem s 4096 = Err IndexError /\
  snd (setitem fuel s 4096 val) = Err IndexError /\
  getitem s (-1) = getitem s 4095 /\
  setitem fuel s (-1) val = setitem fuel s 4095 val /\
  LightArray.getitem data 4096 = Err IndexError /\
  (forall v, LightArray.setitem data 4096 v = Err IndexError) /\
  LightArray.getitem data (-1) = LightArray.getitem data 4095 /\
  (forall v, LightArray.setitem data (-1) v = LightArray.setitem data 4095 v) /\
  (forall n w, 0 <= n < 4096 -> n mod 2 = 0 -> py_get data (n / 2) = Ok w ->
     LightArray.setitem data n 16 =
     Ok (<[Z.to_nat (n / 2) := Z.lor (Z.land w 240) 16]> data)).
Proof.
  intros Hs Hfuel He Hlen. apply reachable_inv in Hs.
  destruct fuel as [|[|k]]; try lia. splits.
  - apply getitem_outside; [apply Hs|lia].
  - destruct (setitem_outside k s 4096 val g Hs ltac:(lia) He)
      as (s1 & v & _ & -> & _). reflexivity.
  - unfold getitem.
    rewrite (cell_id_negative s (-1)) by (try apply Hs; lia). reflexivity.
  - apply (setitem_negative k s (-1) val Hs). lia.
  - apply (proj1 (light_past_end data 0 Hlen)).
  - intros v. apply (proj2 (light_past_end data v Hlen)).
  - apply (proj1 (light_negative data 0 Hlen)).
  - intros v. apply (proj2 (light_negative data v Hlen)).
  - intros n w. apply light_unchecked.
Qed.

(** ** Further properties of [BlockArray] *)

Lemma setitem_read fuel s i j d g :
  reachable s -> (2 <= fuel)%nat -> 0 <= i < 4096 -> 0 <= j < 4096 ->
  encode_block d = Some g ->
  getitem (fst (setitem fuel s i d)) j = if i =? j then Ok d else getitem s j.
Proof.
  intros Hs Hfuel Hi Hj He. destruct (Z.eqb_spec i j) as [<-|Hne].
  - destruct fuel as [|[|k]]; try lia.
    destruct (setitem_in_range k s i d g (reachable_inv s Hs) Hi He)
      as (s' & -> & _ & Hcell & _).
    eapply getitem_cell; [exact Hcell|]. eapply decode_encode; eauto.
  - destruct fuel as [|[|k]]; try lia.
    destruct (setitem_in_range k s i d g (reachable_inv s Hs) Hi He)
      as (s' & -> & _ & _ & Hother & _).
    apply getitem_same_cells, Hother; [exact Hj|congruence].
Qed.

(** X1.  After a sequence of writes inside [0, 4096), an index reads the value
    of the last write at it, or what it read before when none of the
    writes is at it: the array behaves as 4096 independent cells. *)
Theorem write_all_reads fuel ws : forall s i,
  reachable s -> (2 <= fuel)%nat ->
  Forall (fun w => 0 <= fst w < 4096 /\
                   exists g, encode_block (snd w) = Some g) ws ->
  0 <= i < 4096 ->
  getitem (write_all fuel s ws) i =
  match last_write ws i with
  | Some d => Ok d
  | None => getitem s i
  end.
Proof.
  induction ws as [|w ws IH]; intros s i Hs Hfuel Hws Hi; [reflexivity|].
  apply Forall_cons in Hws as [[Hw [g He]] Hws].
  change (write_all fuel s (w :: ws))
    with (write_all fuel (fst (setitem fuel s (fst w) (snd w))) ws).
  rewrite IH by (try assumption; apply reach_setitem; assumption).
  cbn [last_write]. destruct (last_write ws i); [reflexivity|].
  rewrite (setitem_read fuel s (fst w) i (snd w) g) by assumption.
  destruct (fst w =? i); reflexivity.
Qed.

(** X2.  Negative indices from -4096 to -1 address the cells from the end, on
    read and on write. *)
Theorem negative_index fuel s n val :
  reachable s -> (2 <= fuel)%nat -> -4096 <= n < 0 ->
  getitem s n = getitem s (n + 4096) /\
  setitem fuel s n val = setitem fuel s (n + 4096) val.
Proof.
  intros Hs Hfuel Hn. apply reachable_inv in Hs. split.
  - unfold getitem. rewrite cell_id_negative by (try apply Hs; exact Hn).
    reflexivity.
  - destruct fuel as [|[|k]]; try lia. apply setitem_negative; assumption.
Qed.

(** X3.  A read at an index outside [-4096, 4096) raises [IndexError]. *)
Theorem getitem_out_of_range s n :
  reachable s -> ~ (-4096 <= n < 4096) -> getitem s n = Err IndexError.
Proof.
  intros Hs Hn. apply getitem_outside; [apply (reachable_inv s Hs)|exact Hn].
Qed.

(** X4.  The palette of a reachable array is not empty, has no duplicates,
    fits the width, which is between 4 and 8, and holds ids the registry
    decodes; without a palette the width is the registry's. *)
Theorem palette_invariant s :
  reachable s ->
  match palette s with
  | Some p =>
    4 <= bits s <= 8 /\ 0 < Z.of_nat (length p) <= 2 ^ bits s /\
    NoDup p /\ forall g, g ∈ p -> exists d, decode_block g = Some d
  | None => bits s = max_bits
  end.
Proof.
  intros Hs. apply reachable_inv in Hs.
  destruct (palette s) as [p|] eqn:Hp; [|apply (inv_direct _ Hs Hp)].
  destruct (inv_palette _ Hs p Hp) as (Hb & Hlen & Hnd & Hkn).
  splits; try assumption; try lia.
  - destruct (inv_cells _ Hs 0 ltac:(lia)) as (g & Hg & _).
    destruct (cell_id_field _ _ _ Hg) as (v & _ & Hv). rewrite Hp in Hv.
    apply py_get_elem in Hv. destruct p; [inversion Hv|simpl; lia].
  - intros g Hg. rewrite Forall_forall in Hkn. apply (Hkn g Hg).
Qed.

(** X5.  Every storage word of a reachable array is an unsigned 64-bit
    integer. *)
Theorem words_unsigned_64 s w :
  reachable s -> w ∈ data s -> 0 <= w < 2 ^ 64.
Proof.
  intros Hs Hw. apply reachable_inv in Hs.
  pose proof (wf_words _ (inv_wf _ Hs)) as Hall.
  rewrite Forall_forall in Hall. apply (Hall w Hw).
Qed.

(** X6.  Layout: the field of cell [n] is the [bits] bits from position
    [bits * n] of the words read as one little-endian bit string; it may
    straddle two words. *)
Theorem field_layout s n j :
  reachable s -> 0 <= n < 4096 -> 0 <= j < bits s ->
  exists v, field s n = Ok v /\ 0 <= v < 2 ^ bits s /\
    Z.testbit v j = gbit (data s) (bits s * n + j).
Proof.
  intros Hs Hn Hj. apply reachable_inv in Hs.
  destruct (field_spec s n (inv_wf _ Hs) Hn) as (v & Hv & Hbits).
  exists v. splits; try assumption;
    try apply (field_range s n v (inv_wf _ Hs) Hn Hv).
  rewrite Hbits by lia. destruct (Z.ltb_spec j (bits s)); [reflexivity|lia].
Qed.

(** X7.  The store of a write changes the bits of its own field and no other
    bit of the storage. *)
Theorem store_touches_own_field s n v k :
  reachable s -> 0 <= n < 4096 -> 0 <= k ->
  exists s', store s n v = (s', Ok tt) /\
    bits s' = bits s /\ palette s' = palette s /\
    length (data s') = length (data s) /\
    gbit (data s') k =
      if (bits s * n <=? k) && (k <? bits s * n + bits s)
      then Z.testbit v (k - bits s * n) else gbit (data s) k.
Proof.
  intros Hs Hn Hk. apply reachable_inv in Hs.
  destruct (store_spec s n v (inv_wf _ Hs) Hn) as (d' & Hst & Hwf' & Hbits).
  exists (with_data s d'). splits; try reflexivity; try assumption.
  - pose proof (wf_length _ Hwf'). pose proof (wf_length _ (inv_wf _ Hs)).
    simpl in *. lia.
  - apply Hbits, Hk.
Qed.

(** X8.  At width 4 [repack()] changes nothing, whatever the cells hold:
    palette entries no cell uses any more stay in the palette. *)
Theorem repack_keeps_palette fuel s p :
  reachable s -> (1 <= fuel)%nat -> palette s = Some p -> bits s = 4 ->
  repack fuel s None = (s, Ok tt).
Proof.
  intros Hs Hfuel Hp Hb. apply reachable_inv in Hs.
  destruct fuel as [|k]; [lia|].
  apply (repack_none_small k s p Hs Hp); [|exact Hb].
  destruct (inv_palette _ Hs p Hp) as (_ & Hlen & _). rewrite Hb in Hlen.
  change (2 ^ 4) with 16 in Hlen. exact Hlen.
Qed.

(** X9.  So [repack()] does not make [is_empty] exact: put a block into an
    empty array, take it out again by writing air, call [repack()]; every
    cell holds id 0 and [is_empty] still answers false. *)
Theorem is_empty_false_after_removal fuel1 fuel2 s i d g air :
  reachable s -> (2 <= fuel1)%nat -> (1 <= fuel2)%nat ->
  palette s = Some [0] -> bits s = 4 -> 0 <= i < 4096 ->
  encode_block d = Some g -> g <> 0 -> encode_block air = Some 0 ->
  exists s1 s2 s3,
    setitem fuel1 s i d = (s1, Ok tt) /\
    setitem fuel1 s1 i air = (s2, Ok tt) /\
    repack fuel2 s2 None = (s3, Ok tt) /\
    (forall n, 0 <= n < 4096 -> cell_id s3 n = Ok 0) /\
    is_empty s3 = false.
Proof.
  intros Hs Hf1 Hf2 Hp Hb Hi He Hg Hair.
  pose proof (reachable_inv s Hs) as Hinv.
  destruct fuel1 as [|[|k1]]; try lia.
  destruct (setitem_in_range k1 s i d g Hinv Hi He)
    as (s1 & Hst1 & Hinv1 & _ & Hother1 & Hcase1).
  rewrite Hp in Hcase1. rewrite py_index_fresh in Hcase1
    by (intros Hin; apply list_elem_of_singleton in Hin; lia).
  simpl in Hcase1. destruct Hcase1 as [Hb1 Hp1].
  destruct (setitem_in_range k1 s1 i air 0 Hinv1 Hi Hair)
    as (s2 & Hst2 & Hinv2 & Hcell2 & Hother2 & Hcase2).
  rewrite Hp1 in Hcase2. simpl in Hcase2. destruct Hcase2 as [Hb2 Hp2].
  assert (Hr2 : reachable s2).
  { replace s2 with (fst (setitem (S (S k1)) s1 i air)) by (rewrite Hst2; reflexivity).
    apply reach_setitem; [|lia].
    replace s1 with (fst (setitem (S (S k1)) s i d)) by (rewrite Hst1; reflexivity).
    apply reach_setitem; [exact Hs|lia]. }
  exists s1, s2, s2. splits; try assumption.
  - destruct fuel2 as [|k2]; [lia|].
    apply (repack_none_small k2 s2 [0; g] Hinv2 Hp2); [simpl; lia|congruence].
  - intros n Hn. destruct (Z.eq_dec n i) as [->|Hne]; [exact Hcell2|].
    rewrite (Hother2 n Hn Hne), (Hother1 n Hn Hne).
    apply empty_cells_zero; try assumption.
    unfold is_empty. rewrite Hp. apply bool_decide_eq_true. reflexivity.
  - unfold is_empty. rewrite Hp2. apply bool_decide_eq_false.
    intros [= Heq].
Qed.

Lemma repack_none_subset k s p :
  inv s -> palette s = Some p ->
  exists s' pal, repack (S k) s None = (s', Ok tt) /\
    pal ⊆+ p /\ 0 < Z.of_nat (length pal) /\
    (bits s = fst (new_encoding (Z.log2_up (Z.of_nat (length pal))) pal) /\
     s' = s \/
     bits s <> fst (new_encoding (Z.log2_up (Z.of_nat (length pal))) pal) /\
     bits s' = fst (new_encoding (Z.log2_up (Z.of_nat (length pal))) pal) /\
     palette s' = snd (new_encoding (Z.log2_up (Z.of_nat (length pal))) pal)).
Proof.
  intros Hinv Hp.
  destruct (repack_none_spec k s Hinv)
    as (s' & Hrp & _ & _ & vs & pal & Hvs & Hpal & Hcase).
  destruct (contents_palette s vs Hinv Hvs)
    as (pal' & Hpal' & Hpos & Hnd & _ & _ & Hall).
  assert (pal' = pal) by congruence. subst pal'.
  exists s', pal. splits; try assumption.
  apply NoDup_submseteq; [exact Hnd|]. intros g Hg.
  apply list_elem_of_lookup in Hg as [j Hj].
  destruct (Forall2_lookup_r _ _ _ _ _ Hall Hj) as (v & Hv & He).
  apply list_elem_of_lookup_2, (proj1 (set_of_elem Hset vs v)) in Hv.
  destruct (getslice_elem s vs v Hinv Hvs Hv) as (n & Hn & Hget).
  destruct (getitem_inv_cell _ _ _ Hget) as (g' & Hg' & Hd).
  assert (g' = g) by (apply (encode_decode Hreg) in Hd; congruence). subst g'.
  destruct (cell_id_field _ _ _ Hg') as (x & _ & Hx). rewrite Hp in Hx.
  eapply py_get_elem; eauto.
Qed.

(** X10.  When [repack()] does change the width and ends in indirect mode, the
    new palette is exactly the ids in use, each once; [is_empty] is then
    exact. *)
Theorem repack_palette_exact fuel s s' p :
  reachable s -> (1 <= fuel)%nat ->
  repack fuel s None = (s', Ok tt) -> bits s' <> bits s ->
  palette s' = Some p ->
  NoDup p /\
  (forall g, g ∈ p <-> exists n, 0 <= n < 4096 /\ cell_id s' n = Ok g) /\
  (is_empty s' = true <-> forall n, 0 <= n < 4096 -> cell_id s' n = Ok 0).
Proof.
  intros Hs Hfuel Hrp Hbits Hp. apply reachable_inv in Hs.
  destruct fuel as [|k]; [lia|].
  destruct (repack_none_spec k s Hs)
    as (s0 & Hrp0 & Hinv' & Hsame & vs & pal & Hvs & Hpal & Hcase).
  assert (s0 = s') by congruence. subst s0. cbv zeta in Hcase.
  destruct Hcase as [[_ ->]|(_ & _ & Hp')]; [congruence|].
  destruct (contents_palette s vs Hs Hvs)
    as (pal' & Hpal' & Hpos & Hnd & _ & Hcells & Hall).
  assert (pal' = pal) by congruence. subst pal'.
  assert (p = pal).
  { rewrite Hp in Hp'. unfold new_encoding in Hp'.
    destruct (_ <=? 8); simpl in Hp'; congruence. }
  subst p.
  assert (Hiff : forall g, g ∈ pal <->
            exists n, 0 <= n < 4096 /\ cell_id s' n = Ok g).
  { intros g. split.
    - intros Hg. apply list_elem_of_lookup in Hg as [j Hj].
      destruct (Forall2_lookup_r _ _ _ _ _ Hall Hj) as (v & Hv & He).
      apply list_elem_of_lookup_2, (proj1 (set_of_elem Hset vs v)) in Hv.
      destruct (getslice_elem s vs v Hs Hvs Hv) as (n & Hn & Hget).
      destruct (getitem_inv_cell _ _ _ Hget) as (g' & Hg' & Hd).
      assert (g' = g) by (apply (encode_decode Hreg) in Hd; congruence).
      subst g'. exists n. split; [exact Hn|]. rewrite (Hsame n Hn). exact Hg'.
    - intros (n & Hn & Hg). rewrite (Hsame n Hn) in Hg.
      destruct (Hcells n Hn) as (g' & Hg' & Hin). congruence. }
  splits; try assumption. split.
  - intros Hempty n Hn. apply empty_cells_zero; assumption.
  - intros Hzero. unfold is_empty. rewrite Hp. apply bool_decide_eq_true.
    assert (Hall0 : forall g, g ∈ pal -> g = 0).
    { intros g Hg. apply Hiff in Hg as (n & Hn & Hg).
      rewrite (Hzero n Hn) in Hg. congruence. }
    destruct pal as [|x [|y pal]]; simpl in Hpos; try lia.
    + rewrite (Hall0 x ltac:(left)). reflexivity.
    + exfalso. apply NoDup_cons in Hnd as [Hx _]. apply Hx.
      rewrite (Hall0 x ltac:(left)).
      rewrite <- (Hall0 y ltac:(right; left)). left.
Qed.

(** X11.  In direct mode [is_empty] is exact: it holds exactly when every cell
    holds id 0, because the fields cover every bit of the storage. *)
Theorem is_empty_direct_exact s :
  reachable s -> palette s = None ->
  (is_empty s = true <-> forall n, 0 <= n < 4096 -> cell_id s n = Ok 0).
Proof.
  intros Hs Hp. apply reachable_inv in Hs. split.
  { intros He n Hn. apply empty_cells_zero; assumption. }
  intros Hzero. unfold is_empty. rewrite Hp. apply negb_true_iff.
  destruct (existsb _ (data s)) eqn:He; [exfalso|reflexivity].
  apply existsb_exists in He as (w & Hw & Hnz).
  apply negb_true_iff, Z.eqb_neq in Hnz. apply Hnz.
  pose proof (inv_wf _ Hs) as Hwf. pose proof (wf_bits _ Hwf) as Hb.
  pose proof (wf_length _ Hwf) as Hlen.
  apply list_elem_of_In, list_elem_of_lookup in Hw as [q Hq].
  pose proof (lookup_lt_Some _ _ _ Hq) as Hlt.
  assert (Hword : is_word w).
  { pose proof (wf_words _ Hwf) as Hall. rewrite Forall_lookup in Hall. eauto. }
  apply Z.bits_inj'. intros r Hr. rewrite Z.testbit_0_l.
  destruct (Z_lt_ge_dec r 64) as [Hr64|Hr64];
    [|apply is_word_bits; [exact Hword|lia]].
  set (k := 64 * Z.of_nat q + r).
  assert (Hk : 0 <= k < bits s * 4096) by (unfold k; lia).
  assert (Hn : 0 <= k / bits s < 4096).
  { split; [apply Z.div_pos; lia|apply Z.div_lt_upper_bound; lia]. }
  assert (Hj : 0 <= k mod bits s < bits s) by (apply Z.mod_pos_bound; lia).
  pose proof (Hzero (k / bits s) Hn) as Hcell. unfold cell_id in Hcell.
  rewrite Hp in Hcell.
  destruct (field_spec s (k / bits s) Hwf Hn) as (v & Hv & Hbits).
  rewrite Hv in Hcell. simpl in Hcell. injection Hcell as ->.
  specialize (Hbits (k mod bits s) ltac:(lia)).
  rewrite Z.testbit_0_l in Hbits.
  replace (bits s * (k / bits s) + k mod bits s) with k in Hbits
    by (apply Z.div_mod; lia).
  destruct (Z.ltb_spec (k mod bits s) (bits s)); [|lia]. simpl in Hbits.
  unfold k in Hbits. rewrite gbit_at in Hbits by lia.
  rewrite Nat2Z.id, Hq in Hbits. simpl in Hbits. congruence.
Qed.

(** ** Slices and iteration *)

Lemma getitems_range s a n :
  inv s -> 0 <= a -> 0 <= n -> a + n <= 4096 ->
  exists vs, getitems s (seqZ a n) = Ok vs /\ length vs = Z.to_nat n /\
    forall k, 0 <= k < n ->
      exists d, vs !! Z.to_nat k = Some d /\ getitem s (a + k) = Ok d.
Proof.
  intros Hinv Ha Hn Hb.
  destruct (getitems_Ok s (seqZ a n)) as (vs & Hvs & Hall).
  { intros o Ho. apply elem_of_seqZ in Ho.
    destruct (inv_getitem s o Hinv ltac:(lia)) as (g & d & _ & _ & Hd). eauto. }
  exists vs. split; [exact Hvs|]. split.
  - rewrite <- (Forall2_length _ _ _ Hall), length_seqZ. reflexivity.
  - intros k Hk.
    destruct (Forall2_lookup_l _ _ _ (Z.to_nat k) (a + k) Hall) as (d & Hd & Hget).
    { rewrite lookup_seqZ_lt by lia. f_equal. lia. }
    exists d. split; assumption.
Qed.

(** X12.  Reading [self[a:b]] for [0 <= a <= b <= 4096] gives the [b - a]
    values that the indices [a], ..., [b - 1] read, in order. *)
Theorem getitem_slice_reads s a b :
  reachable s -> 0 <= a <= b -> b <= 4096 ->
  exists vs,
    getitem_slice s (mk_slice (Some a) (Some b) None) = Ok vs /\
    Z.of_nat (length vs) = b - a /\
    forall k, 0 <= k < b - a ->
      exists d, vs !! Z.to_nat k = Some d /\ getitem s (a + k) = Ok d.
Proof.
  intros Hs Hab Hb. apply reachable_inv in Hs.
  unfold getitem_slice. rewrite slice_indices_plain by lia.
  rewrite py_range_unit.
  destruct (getitems_range s a (b - a) Hs) as (vs & Hvs & Hlen & Hget); try lia.
  exists vs. splits; try assumption. lia.
Qed.

(** X13.  Iterating over the array, as [repack()] does, yields the same list
    as the full slice [self[:]]: [len(self)] values, the one at position
    [n] being what index [n] reads. *)
Theorem iter_full_slice s :
  reachable s ->
  exists vs, iter s = Ok vs /\
    getitem_slice s (mk_slice None None None) = Ok vs /\
    Z.of_nat (length vs) = array_len /\
    forall n, 0 <= n < array_len ->
      exists d, vs !! Z.to_nat n = Some d /\ getitem s n = Ok d.
Proof.
  intros Hs. apply reachable_inv in Hs.
  destruct (getitems_range s 0 4096 Hs) as (vs & Hvs & Hlen & Hget); try lia.
  exists vs. splits.
  - rewrite iter_getslice by exact Hs. exact Hvs.
  - unfold getitem_slice. change (slice_indices _ 4096) with (Ok (0, 4096, 1)).
    cbv beta iota. rewrite py_range_unit. exact Hvs.
  - unfold array_len. lia.
  - unfold array_len. intros n Hn. apply (Hget n Hn).
Qed.

Lemma setitems_app sr (s : t) (values : list D) os1 os2 :
  setitems sr s values (os1 ++ os2) =
  match setitems sr s values os1 with
  | (s1, Ok _) => setitems sr s1 values os2
  | (s1, Err e) => (s1, Err e)
  end.
Proof.
  revert s. induction os1 as [|o os1 IH]; intros s; [reflexivity|].
  cbn [app setitems]. destruct (py_get values o) as [v|e]; [|reflexivity].
  destruct (sr s o v) as [s1 [[]|e]]; [apply IH|reflexivity].
Qed.

Lemma setitems_writes k (values : list D) os :
  NoDup os ->
  (forall o, o ∈ os -> 0 <= o < 4096 /\
     exists v g, py_get values o = Ok v /\ encode_block v = Some g) ->
  forall s, inv s ->
  exists s', setitems (setitem (S (S k))) s values os = (s', Ok tt) /\
    inv s' /\
    (forall o, o ∈ os -> of_option IndexError (values !! Z.to_nat o) =
                         getitem s' o) /\
    (forall m, 0 <= m < 4096 -> m ∉ os -> cell_id s' m = cell_id s m).
Proof.
  induction os as [|o os IH]; intros Hnd Hos s Hinv.
  - exists s. splits; try assumption; try reflexivity.
    intros o Ho. inversion Ho.
  - apply NoDup_cons in Hnd as [Hfresh Hnd].
    destruct (Hos o ltac:(left)) as (Ho & v & g & Hv & He).
    destruct (setitem_in_range k s o v g Hinv Ho He)
      as (s1 & Hst & Hinv1 & Hcell & Hother & _).
    destruct (IH Hnd (fun o' Ho' => Hos o' (list_elem_of_further _ _ _ Ho'))
                s1 Hinv1) as (s' & Hst' & Hinv' & Hin' & Hout').
    exists s'. cbn [setitems]. rewrite Hv. cbv beta iota. rewrite Hst.
    splits; try assumption.
    + intros o' Ho'. apply elem_of_cons in Ho' as [->|Ho']; [|apply Hin', Ho'].
      apply py_get_Ok_nonneg in Hv; [|lia]. rewrite Hv. simpl. symmetry.
      eapply getitem_cell; [|eapply decode_encode; eauto].
      rewrite (Hout' o Ho Hfresh). exact Hcell.
    + intros m Hm Hnot. apply not_elem_of_cons in Hnot as [Hne Hnot].
      rewrite (Hout' m Hm Hnot). apply Hother; assumption.
Qed.

(** X14.  Slice assignment [self[a:b] = val] for [0 <= a <= b <= 4096] takes
    the value for cell [o] from [val[o]], the cell's own index and not
    its position in the slice.  When [val] reaches that far, the cells
    [a], ..., [b - 1] then read [val[o]] and every other index reads as
    before. *)
Theorem setitem_slice_writes fuel s a b val :
  reachable s -> (2 <= fuel)%nat -> 0 <= a <= b -> b <= 4096 ->
  (forall o, a <= o < b -> exists d g,
      val !! Z.to_nat o = Some d /\ encode_block d = Some g) ->
  exists s',
    setitem_slice fuel s (mk_slice (Some a) (Some b) None) val = (s', Ok tt) /\
    (forall o, a <= o < b ->
       of_option IndexError (val !! Z.to_nat o) = getitem s' o) /\
    (forall m, 0 <= m < 4096 -> ~ (a <= m < b) -> getitem s' m = getitem s m).
Proof.
  intros Hs Hfuel Hab Hb Hval. apply reachable_inv in Hs.
  destruct fuel as [|[|k]]; try lia.
  unfold setitem_slice. rewrite slice_indices_plain by lia.
  rewrite py_range_unit.
  destruct (setitems_writes k val (seqZ a (b - a)) (NoDup_seqZ _ _)) with (s := s)
    as (s' & Hst & _ & Hin & Hout); [|exact Hs|].
  { intros o Ho. apply elem_of_seqZ in Ho. split; [lia|].
    destruct (Hval o ltac:(lia)) as (d & g & Hd & He).
    exists d, g. split; [|exact He]. apply py_get_nonneg; [lia|exact Hd]. }
  exists s'. splits; [exact Hst| |].
  - intros o Ho. apply Hin, elem_of_seqZ. lia.
  - intros m Hm Hnot. apply getitem_same_cells, Hout; [exact Hm|].
    intros Hin'. apply elem_of_seqZ in Hin'. lia.
Qed.

(** X15.  With a [val] shorter than [b], whose values from index [a] on
    the registry encodes, the slice assignment raises [IndexError] when
    it reaches index [len(val)], and what it wrote before stays: the
    cells from [a] up to [len(val) - 1], if any.  So [self[a:b] = val]
    with [len(val) <= a] always fails and writes nothing. *)
Theorem setitem_slice_short fuel s a b val :
  reachable s -> (2 <= fuel)%nat -> 0 <= a < b -> b <= 4096 ->
  Z.of_nat (length val) < b ->
  (forall o d, a <= Z.of_nat o -> val !! o = Some d ->
     exists g, encode_block d = Some g) ->
  exists s',
    setitem_slice fuel s (mk_slice (Some a) (Some b) None) val
      = (s', Err IndexError) /\
    (forall o, a <= o < Z.of_nat (length val) ->
       of_option IndexError (val !! Z.to_nat o) = getitem s' o) /\
    (forall m, 0 <= m < 4096 -> ~ (a <= m < Z.of_nat (length val)) ->
       getitem s' m = getitem s m).
Proof.
  intros Hs Hfuel Hab Hb Hshort Hval. apply reachable_inv in Hs.
  destruct fuel as [|[|k]]; try lia.
  unfold setitem_slice. rewrite slice_indices_plain by lia.
  rewrite py_range_unit.
  set (m := Z.max a (Z.of_nat (length val))).
  rewrite (seqZ_split a m b) by (unfold m; lia). rewrite setitems_app.
  destruct (setitems_writes k val (seqZ a (m - a)) (NoDup_seqZ _ _)) with (s := s)
    as (s' & Hst & _ & Hin & Hout); [|exact Hs|].
  { intros o Ho. apply elem_of_seqZ in Ho. split; [lia|].
    destruct (lookup_lt_is_Some_2 val (Z.to_nat o)) as [d Hd]; [unfold m in Ho; lia|].
    destruct (Hval (Z.to_nat o) d) as [g He]; [lia|exact Hd|].
    exists d, g. split; [|exact He]. apply py_get_nonneg; [lia|exact Hd]. }
  rewrite Hst. exists s'. splits.
  - rewrite (seqZ_cons m) by (unfold m; lia). cbn [setitems].
    rewrite py_get_out by (unfold m; lia). reflexivity.
  - intros o Ho. apply Hin, elem_of_seqZ. unfold m. lia.
  - intros j Hj Hnot. apply getitem_same_cells, Hout; [exact Hj|].
    intros Hin'. apply elem_of_seqZ in Hin'. unfold m in Hin'. lia.
Qed.

(** X16.  A full slice assignment followed by a full slice read returns the
    assigned list: [self[:] = val; self[:]] is [val], for 4096 values the
    registry encodes. *)
Theorem slice_roundtrip fuel s val :
  reachable s -> (2 <= fuel)%nat -> length val = 4096%nat ->
  (forall d, d ∈ val -> exists g, encode_block d = Some g) ->
  exists s',
    setitem_slice fuel s (mk_slice None None None) val = (s', Ok tt) /\
    getitem_slice s' (mk_slice None None None) = Ok val.
Proof.
  intros Hs Hfuel Hlen Hval. apply reachable_inv in Hs.
  destruct fuel as [|[|k]]; try lia.
  unfold setitem_slice, getitem_slice.
  change (slice_indices _ 4096) with (Ok (0, 4096, 1)). cbv beta iota.
  rewrite py_range_unit.
  destruct (setitems_writes k val (seqZ 0 (4096 - 0)) (NoDup_seqZ _ _)) with (s := s)
    as (s' & Hst & Hinv' & Hin & _); [|exact Hs|].
  { intros o Ho. apply elem_of_seqZ in Ho. split; [lia|].
    destruct (lookup_lt_is_Some_2 val (Z.to_nat o)) as [d Hd]; [lia|].
    destruct (Hval d (list_elem_of_lookup_2 _ _ _ Hd)) as [g He].
    exists d, g. split; [|exact He]. apply py_get_nonneg; [lia|exact Hd]. }
  exists s'. split; [exact Hst|].
  destruct (getitems_range s' 0 (4096 - 0) Hinv') as (vs & Hvs & Hlenvs & Hget);
    try lia.
  rewrite Hvs. f_equal.
  apply (list_eq_same_length vs val 4096%nat); [exact Hlen|rewrite Hlenvs; lia|].
  intros j x y Hj Hx Hy.
  destruct (Hget (Z.of_nat j) ltac:(lia)) as (d & Hd & Hgd).
  rewrite Nat2Z.id in Hd.
  replace (0 + Z.of_nat j) with (Z.of_nat j) in Hgd by lia.
  pose proof (Hin (Z.of_nat j)) as Hw. rewrite Nat2Z.id, Hy in Hw. simpl in Hw.
  rewrite <- Hw in Hgd by (apply elem_of_seqZ; lia). congruence.
Qed.

(** ** Mode and width transitions *)

Lemma store_keeps_encoding s n v :
  bits (fst (store s n v)) = bits s /\ palette (fst (store s n v)) = palette s.
Proof.
  unfold store.
  destruct (py_aug _ (data s) _) as [d1|]; [|split; reflexivity].
  destruct (py_aug _ d1 _) as [d2|]; [|split; reflexivity].
  destruct (_ =? _); [split; reflexivity|].
  destruct (py_aug _ d2 _) as [d3|]; [|split; reflexivity].
  destruct (py_aug _ d3 _) as [d4|]; split; reflexivity.
Qed.

(** X17.  Direct mode is left by [repack()] alone: a write, failing or not,
    keeps an array without palette in direct mode at its width, and
    [repack(reserve)] returns it as it is. *)
Theorem direct_mode_persists fuel s n val r :
  palette s = None ->
  palette (fst (setitem fuel s n val)) = None /\
  bits (fst (setitem fuel s n val)) = bits s /\
  repack fuel s (Some r) = (s, Ok tt).
Proof.
  intros Hp. splits.
  - destruct fuel as [|k]; [exact Hp|].
    change (setitem (S k) s n val)
      with (setitem_body (repack_body (setitem k)) s n val).
    unfold setitem_body, translate. destruct (encode_block val); [|exact Hp].
    rewrite Hp. rewrite (proj2 (store_keeps_encoding s n z)). exact Hp.
  - destruct fuel as [|k]; [reflexivity|].
    change (setitem (S k) s n val)
      with (setitem_body (repack_body (setitem k)) s n val).
    unfold setitem_body, translate. destruct (encode_block val); [|reflexivity].
    rewrite Hp. apply (proj1 (store_keeps_encoding s n z)).
  - unfold repack, repack_body. rewrite Hp. reflexivity.
Qed.

(** X18.  What one write does to the encoding of an indirect array: an id
    already in the palette changes neither palette nor width; a new id is
    appended to the palette, and the width becomes that of the new
    palette length, at least 4; a new id for a palette of 256 entries
    drops the palette and sets the registry's width. *)
Theorem setitem_palette_step fuel s i d g p :
  reachable s -> (2 <= fuel)%nat -> 0 <= i < 4096 ->
  encode_block d = Some g -> palette s = Some p ->
  (g ∈ p ->
   palette (fst (setitem fuel s i d)) = Some p /\
   bits (fst (setitem fuel s i d)) = bits s) /\
  (g ∉ p -> Z.of_nat (length p) < 256 ->
   palette (fst (setitem fuel s i d)) = Some (p ++ [g]) /\
   bits (fst (setitem fuel s i d)) =
     Z.max 4 (Z.log2_up (Z.of_nat (length p) + 1))) /\
  (g ∉ p -> Z.of_nat (length p) = 256 ->
   palette (fst (setitem fuel s i d)) = None /\
   bits (fst (setitem fuel s i d)) = max_bits).
Proof.
  intros Hs Hfuel Hi He Hp. destruct fuel as [|[|k]]; try lia.
  destruct (setitem_in_range k s i d g (reachable_inv s Hs) Hi He)
    as (s' & -> & _ & _ & _ & Hcase).
  rewrite Hp in Hcase. simpl fst. splits.
  - intros Hin. destruct (py_index_elem _ _ Hin) as [j Hj].
    rewrite Hj in Hcase. destruct Hcase; auto.
  - intros Hfresh Hlen. rewrite (py_index_fresh _ _ Hfresh) in Hcase.
    cbv zeta in Hcase.
    pose proof (Z.log2_up_nonneg (Z.of_nat (length p) + 1)) as Hnn.
    assert (Z.log2_up (Z.of_nat (length p) + 1) <= 8)
      by (apply Z.log2_up_le_pow2; [lia|change (2 ^ 8) with 256; lia]).
    destruct (new_encoding_cases _ p Hnn) as [[_ Henc]|[Hbig _]]; [|lia].
    rewrite Henc in Hcase. destruct Hcase as [Hb Hpal]. auto.
  - intros Hfresh Hlen. rewrite (py_index_fresh _ _ Hfresh) in Hcase.
    rewrite Hlen in Hcase. simpl in Hcase. destruct Hcase as [Hb Hpal]. auto.
Qed.

(** X19.  [repack(reserve)] on an indirect array sets the width for the
    palette length plus the reserve, which may be less than before: up to
    256 entries the palette stays and the width is that of the sum, at
    least 4; above, the width is the registry's and the palette goes. *)
Theorem repack_reserve_width fuel s r p :
  reachable s -> (1 <= fuel)%nat -> 0 < r -> palette s = Some p ->
  (Z.of_nat (length p) + r <= 256 ->
   bits (fst (repack fuel s (Some r))) =
     Z.max 4 (Z.log2_up (Z.of_nat (length p) + r)) /\
   palette (fst (repack fuel s (Some r))) = Some p) /\
  (256 < Z.of_nat (length p) + r ->
   bits (fst (repack fuel s (Some r))) = max_bits /\
   (bits s <> max_bits -> palette (fst (repack fuel s (Some r))) = None)).
Proof.
  intros Hs Hfuel Hr Hp. destruct fuel as [|k]; [lia|].
  destruct (repack_reserve_spec k s r (reachable_inv s Hs) Hr)
    as (s' & -> & _ & _ & Hcase).
  rewrite Hp in Hcase. cbv zeta in Hcase. simpl fst.
  pose proof (Z.log2_up_nonneg (Z.of_nat (length p) + r)) as Hnn.
  destruct (new_encoding_cases (Z.log2_up (Z.of_nat (length p) + r)) p Hnn)
    as [[Hle Henc]|[Hgt Henc]]; rewrite Henc in Hcase; simpl in Hcase.
  - split.
    + intros _. destruct Hcase as [[Hb ->]|(_ & Hb & Hpal)]; auto.
    + intros Hbig. exfalso.
      assert (Z.of_nat (length p) + r <= 2 ^ 8)
        by (apply Z.log2_up_le_pow2; lia).
      change (2 ^ 8) with 256 in *. lia.
  - split.
    + intros Hsmall. exfalso.
      assert (Z.log2_up (Z.of_nat (length p) + r) <= 8)
        by (apply Z.log2_up_le_pow2; [lia|change (2 ^ 8) with 256; lia]).
      lia.
    + intros _. destruct Hcase as [[Hb ->]|(_ & Hb & Hpal)]; auto.
      split; [exact Hb|]. intros Hne. congruence.
Qed.

End Registry.

(** ** The registry of plain ids *)

Lemma ids_registry_ok : registry_ok Ids.block_map.
Proof.
  assert (Hk : forall d g, Ids.known d = Some g -> g = d /\ 0 <= g < 65536).
  { intros d g. unfold Ids.known.
    destruct (Z.leb_spec 0 d), (Z.ltb_spec d 65536); simpl; try discriminate.
    intros [= <-]. lia. }
  constructor; simpl.
  - intros d g Hd. destruct (Hk d g Hd) as [-> _]. exact Hd.
  - intros d g Hd. destruct (Hk g d Hd) as [-> _]. exact Hd.
  - intros d g Hd. destruct (Hk d g Hd) as [_ Hr]. change (2 ^ 16) with 65536. lia.
  - lia.
  - exists 0. reflexivity.
Qed.

Lemma ids_set_ok : set_ok Ids.set_order.
Proof.
  constructor; simpl.
  - intros l. apply NoDup_remove_dups.
  - intros l x. apply elem_of_remove_dups.
Qed.

(** Writing ids [1 .. n] at indices [0 .. n-1]. *)
Lemma ids_writes n :
  0 <= n <= 4096 ->
  Forall2 (fun w g => 0 <= fst w < 4096 /\ Ids.known (snd w) = Some g)
          ((fun i => (i, i + 1)) <$> seqZ 0 n) (seqZ 1 n).
Proof.
  intros Hn. apply Forall2_same_length_lookup. split.
  - rewrite length_fmap, !length_seqZ. reflexivity.
  - intros i w g Hw Hg. rewrite list_lookup_fmap in Hw.
    apply lookup_seqZ in Hg as [-> Hi].
    rewrite lookup_seqZ_lt in Hw by lia. injection Hw as <-. simpl.
    split; [lia|]. unfold Ids.known.
    destruct (Z.leb_spec 0 (0 + Z.of_nat i + 1)),
      (Z.ltb_spec (0 + Z.of_nat i + 1) 65536); simpl; try lia.
    f_equal. lia.
Qed.

Lemma ids_fresh n : NoDup (0 :: seqZ 1 n).
Proof.
  apply NoDup_cons. split; [|apply NoDup_seqZ].
  intros Hin. apply elem_of_seqZ in Hin. lia.
Qed.

Import Ids.

(** A write, a [repack(reserve)] that widens the fields and a [repack()]
    that narrows them again. *)
Lemma repack_scenario :
  exists s0 s1 s2,
    setitem 2 empty 10 5 = (s0, Ok tt) /\ reachable s0 /\
    bits s0 = 4 /\ palette s0 = Some [0; 5] /\ getitem s0 10 = Ok 5 /\
    repack 1 s0 (Some 100) = (s1, Ok tt) /\ reachable s1 /\
    bits s1 = 7 /\ palette s1 = Some [0; 5] /\
    repack 1 s1 None = (s2, Ok tt) /\ bits s2 = 4.
Proof.
  destruct (setitem_in_range ids_registry_ok 0 empty 10 5 5
              (inv_empty ids_registry_ok)) as (s0 & Hst & Hinv0 & Hcell & _ & Hcase0);
    [lia|reflexivity|].
  simpl in Hcase0. destruct Hcase0 as [Hb0 Hp0].
  assert (Hr0 : reachable s0).
  { replace s0 with (fst (setitem 2 empty 10 5)) by (rewrite Hst; reflexivity).
    apply reach_setitem; [apply reach_empty|lia]. }
  destruct (repack_reserve_spec ids_registry_ok 0 s0 100 Hinv0)
    as (s1 & Hrp1 & Hinv1 & _ & Hcase1); [lia|].
  rewrite Hp0 in Hcase1. simpl in Hcase1. rewrite Hb0 in Hcase1.
  destruct Hcase1 as [[Hb _]|(_ & Hb1 & Hp1)]; [discriminate Hb|].
  assert (Hb1' : bits s1 = 7) by (rewrite Hb1; reflexivity).
  clear Hb1. rename Hb1' into Hb1.
  assert (Hr1 : reachable s1).
  { replace s1 with (fst (repack 1 s0 (Some 100))) by (rewrite Hrp1; reflexivity).
    apply reach_reserve; [exact Hr0|lia|lia]. }
  destruct (repack_none_subset ids_registry_ok ids_set_ok 0 s1 [0; 5] Hinv1 Hp1)
    as (s2 & pal & Hrp2 & Hsub & Hpos & Hcase2).
  assert (Hb2 : bits s2 = 4).
  { pose proof (submseteq_length _ _ Hsub) as Hlen. simpl in Hlen.
    assert (Hsmall : Z.log2_up (Z.of_nat (length pal)) <= 1)
      by (apply Z.log2_up_le_pow2; [lia|change (2 ^ 1) with 2; lia]).
    pose proof (Z.log2_up_nonneg (Z.of_nat (length pal))) as Hnn.
    destruct (new_encoding_cases (Z.log2_up (Z.of_nat (length pal))) pal Hnn)
      as [[_ Henc]|[Hbig _]]; [|lia].
    rewrite Henc in Hcase2. cbn [fst snd] in Hcase2.
    destruct Hcase2 as [[Hb _]|(_ & Hb & _)]; lia. }
  exists s0, s1, s2. splits; try assumption.
  eapply getitem_cell; [exact Hcell|reflexivity].
Qed.

(** ** The claims at concrete inputs *)

Lemma setitem_getitem_roundtrip_witness :
  reachable empty /\ 0 <= 10 < 4096 /\ Ids.known 5 = Some 5 /\
  exists s', setitem 2 empty 10 5 = (s', Ok tt) /\ getitem s' 10 = Ok 5.
Proof.
  splits; [apply reach_empty|lia|lia|reflexivity|].
  apply (setitem_getitem_roundtrip ids_registry_ok ids_set_ok 2 empty 10 5 5);
    [apply reach_empty|lia|lia|reflexivity].
Defined.

Lemma repack_preserves_getitem_witness :
  exists s0 s1 s2,
    setitem 2 empty 10 5 = (s0, Ok tt) /\ getitem s0 10 = Ok 5 /\
    bits s0 = 4 /\
    repack 1 s0 (Some 100) = (s1, Ok tt) /\ bits s1 = 7 /\
    (forall i, 0 <= i < 4096 -> getitem s1 i = getitem s0 i) /\
    repack 1 s1 None = (s2, Ok tt) /\ bits s2 = 4 /\
    (forall i, 0 <= i < 4096 -> getitem s2 i = getitem s1 i) /\
    getitem s2 10 = Ok 5.
Proof.
  destruct repack_scenario
    as (s0 & s1 & s2 & Hst & Hr0 & Hb0 & _ & Hget & Hrp1 & Hr1 & Hb1 & _ & Hrp2 & Hb2).
  destruct (repack_preserves_getitem ids_registry_ok ids_set_ok 1 s0 (Some 100) Hr0)
    as (s1' & Hrp1' & Hsame1); [lia|intros x [= <-]; lia|].
  destruct (repack_preserves_getitem ids_registry_ok ids_set_ok 1 s1 None Hr1)
    as (s2' & Hrp2' & Hsame2); [lia|discriminate|].
  assert (s1' = s1) by congruence. assert (s2' = s2) by congruence.
  subst s1' s2'. exists s0, s1, s2. splits; try assumption.
  rewrite Hsame2, Hsame1 by lia. exact Hget.
Defined.

Lemma repack_idempotent_witness :
  exists s0 s1 s2,
    setitem 2 empty 10 5 = (s0, Ok tt) /\
    repack 1 s0 (Some 100) = (s1, Ok tt) /\ bits s1 = 7 /\
    repack 1 s1 None = (s2, Ok tt) /\ bits s2 = 4 /\
    repack 1 s2 None = (s2, Ok tt).
Proof.
  destruct repack_scenario
    as (s0 & s1 & s2 & Hst & _ & _ & _ & _ & Hrp1 & Hr1 & Hb1 & _ & Hrp2 & Hb2).
  destruct (repack_idempotent ids_registry_ok ids_set_ok 1 1 s1 Hr1)
    as (s2' & Hrp2' & Hagain); [lia|lia|].
  assert (s2' = s2) by congruence. subst s2'.
  exists s0, s1, s2. splits; assumption.
Defined.

Lemma storage_length_witness :
  reachable (fst (setitem 2 empty 10 5)) /\
  Z.of_nat (length (data (fst (setitem 2 empty 10 5)))) =
    64 * bits (fst (setitem 2 empty 10 5)) /\
  64 * bits (fst (setitem 2 empty 10 5)) =
    (4096 * bits (fst (setitem 2 empty 10 5)) + 63) / 64 /\
  length (data empty) = 256%nat /\ bits empty = 4.
Proof.
  assert (Hr : reachable (fst (setitem 2 empty 10 5)))
    by (apply reach_setitem; [apply reach_empty|lia]).
  split; [exact Hr|].
  apply (storage_length ids_registry_ok ids_set_ok _ Hr).
Defined.

Lemma field_below_palette_witness :
  reachable (fst (setitem 2 empty 10 5)) /\
  palette (fst (setitem 2 empty 10 5)) = Some [0; 5] /\
  field (fst (setitem 2 empty 10 5)) 10 = Ok 1 /\
  exists v g, field (fst (setitem 2 empty 10 5)) 10 = Ok v /\
    0 <= v < Z.of_nat (length [0; 5]) /\ py_get [0; 5] v = Ok g.
Proof.
  assert (Hr : reachable (fst (setitem 2 empty 10 5)))
    by (apply reach_setitem; [apply reach_empty|lia]).
  split; [exact Hr|]. split; [reflexivity|]. split; [reflexivity|].
  apply (field_below_palette ids_registry_ok ids_set_ok
           (fst (setitem 2 empty 10 5)) [0; 5] 10 Hr); [reflexivity|lia].
Defined.

Lemma is_empty_sound_witness :
  reachable empty /\ Ids.known 5 = Some 5 /\ 5 <> 0 /\
  is_empty empty = true /\
  (exists s', setitem 2 empty 10 5 = (s', Ok tt) /\ is_empty s' = false) /\
  cell_id empty 7 = Ok 0.
Proof.
  destruct (is_empty_sound ids_registry_ok ids_set_ok 2 empty 10 5 5 7)
    as (Hnew & Hwrite & Hsound);
    [apply reach_empty|lia|lia|reflexivity|lia|lia|].
  splits; [apply reach_empty|reflexivity|lia|exact Hnew|exact Hwrite|].
  apply Hsound. exact Hnew.
Defined.

Lemma failed_setitem_witness :
  reachable empty /\
  setitem 2 empty 4096 0 = (empty, Err IndexError) /\
  ((Ids.known 0 = None /\ IndexError = RegistryError /\ empty = empty) \/
   (exists g, Ids.known 0 = Some g /\ ~ (-4096 <= 4096 < 4096) /\
      IndexError = IndexError /\
      (forall i, 0 <= i < 4096 -> getitem empty i = getitem empty i) /\
      (match palette empty with
       | None => True
       | Some p => g ∈ p
       end -> empty = empty))).
Proof.
  splits; [apply reach_empty|reflexivity|].
  apply (failed_setitem ids_registry_ok ids_set_ok 2 empty 4096 0 IndexError empty);
    [apply reach_empty|lia|reflexivity].
Defined.

Lemma index_bounds_witness :
  reachable empty /\ Ids.known 5 = Some 5 /\
  length LightArray.empty = 2048%nat /\
  getitem empty 4096 = Err IndexError /\
  snd (setitem 2 empty 4096 5) = Err IndexError /\
  getitem empty (-1) = getitem empty 4095 /\
  setitem 2 empty (-1) 5 = setitem 2 empty 4095 5 /\
  LightArray.getitem LightArray.empty 4096 = Err IndexError /\
  (forall v, LightArray.setitem LightArray.empty 4096 v = Err IndexError) /\
  LightArray.getitem LightArray.empty (-1) =
    LightArray.getitem LightArray.empty 4095 /\
  (forall v, LightArray.setitem LightArray.empty (-1) v =
             LightArray.setitem LightArray.empty 4095 v) /\
  (forall n w, 0 <= n < 4096 -> n mod 2 = 0 ->
     py_get LightArray.empty (n / 2) = Ok w ->
     LightArray.setitem LightArray.empty n 16 =
     Ok (<[Z.to_nat (n / 2) := Z.lor (Z.land w 240) 16]> LightArray.empty)).
Proof.
  split; [apply reach_empty|]. split; [reflexivity|]. split; [reflexivity|].
  apply (index_bounds ids_registry_ok ids_set_ok 2 empty 5 5 LightArray.empty);
    [apply reach_empty|lia|reflexivity|reflexivity].
Defined.

Lemma seventeen_writes_witness :
  palette (write_all 2 empty (take 16 ((fun i => (i, i + 1)) <$> seqZ 0 17)))
    = Some (0 :: take 16 (seqZ 1 17)) /\
  bits (write_all 2 empty (take 16 ((fun i => (i, i + 1)) <$> seqZ 0 17)))
    = (if (16 <? 16)%nat then 4 else 5).
Proof.
  apply (seventeen_writes ids_registry_ok ids_set_ok 2
           ((fun i => (i, i + 1)) <$> seqZ 0 17) (seqZ 1 17) 16).
  - lia.
  - reflexivity.
  - apply ids_writes. lia.
  - apply NoDup_seqZ.
  - intros Hin. apply elem_of_seqZ in Hin. lia.
  - lia.
Defined.

Lemma large_id_stays_indirect_witness :
  (exists s1, setitem 2 empty 0 300 = (s1, Ok tt) /\
     palette s1 = Some [0; 300] /\ bits s1 = 4 /\
     repack 1 s1 None = (s1, Ok tt)) /\
  (exists s2,
     setitem 2 (write_all 2 empty ((fun i => (i, i + 1)) <$> seqZ 0 255))
             0 1000 = (s2, Ok tt) /\
     palette s2 = None /\ bits s2 = 16).
Proof.
  destruct (palette_growth ids_registry_ok ids_set_ok 2
              ((fun i => (i, i + 1)) <$> seqZ 0 255) (le_n 2) (seqZ 1 255))
    as (Hreach & Hpal & _).
  { apply ids_writes. lia. }
  { apply ids_fresh. }
  { rewrite length_seqZ. lia. }
  apply (large_id_stays_indirect ids_registry_ok ids_set_ok 2 1 0 300 300
           (write_all 2 empty ((fun i => (i, i + 1)) <$> seqZ 0 255))
           (0 :: seqZ 1 255) 0 1000 1000).
  - reflexivity.
  - lia.
  - lia.
  - lia.
  - reflexivity.
  - lia.
  - exact Hreach.
  - exact Hpal.
  - reflexivity.
  - lia.
  - reflexivity.
  - intros Hin. apply elem_of_cons in Hin as [Hin|Hin]; [lia|].
    apply elem_of_seqZ in Hin. lia.
Defined.

(** ** Where the specification and the code part *)

(** C3: the width is already 5 after the sixteenth insertion, so the
    change is not at the seventeenth. *)
Lemma seventeen_writes_counterexample :
  ~ (bits (write_all 2 empty (take 16 ((fun i => (i, i + 1)) <$> seqZ 0 17))) = 4 /\
     bits (write_all 2 empty ((fun i => (i, i + 1)) <$> seqZ 0 17)) = 5).
Proof.
  intros [H16 _].
  destruct (palette_growth ids_registry_ok ids_set_ok 2
              ((fun i => (i, i + 1)) <$> seqZ 0 16) (le_n 2) (seqZ 1 16))
    as (_ & _ & Hb).
  { apply ids_writes. lia. }
  { apply ids_fresh. }
  { rewrite length_seqZ. lia. }
  change (take 16 ((fun i => (i, i + 1)) <$> seqZ 0 17))
    with ((fun i : Z => (i, i + 1)) <$> seqZ 0 16) in H16.
  rewrite H16 in Hb. discriminate Hb.
Qed.

(** C4: a write at index 4096 of an id that is not in the palette raises
    after the id was appended to the palette. *)
Lemma failed_setitem_counterexample :
  exists s', setitem 2 empty 4096 7 = (s', Err IndexError) /\
    palette s' = Some [0; 7] /\ s' <> empty.
Proof.
  eexists. split; [reflexivity|]. split; [reflexivity|]. discriminate.
Qed.

(** C5: index -1 is not rejected, and neither is the light value 16,
    which ends up in the neighbouring cell. *)
Lemma index_bounds_counterexample :
  getitem empty (-1) = Ok 0 /\
  (exists s', setitem 2 empty (-1) 7 = (s', Ok tt) /\ getitem s' 4095 = Ok 7) /\
  LightArray.getitem LightArray.empty (-1) = Ok 0 /\
  (exists d, LightArray.setitem LightArray.empty 0 16 = Ok d /\
     LightArray.getitem d 0 = Ok 0 /\ LightArray.getitem d 1 = Ok 1).
Proof.
  split; [reflexivity|]. split; [eexists; split; reflexivity|].
  split; [reflexivity|]. eexists. split; [reflexivity|]. split; reflexivity.
Qed.

(** C6: after one write of id 300 and a [repack()] the array is still in
    indirect mode at width 4, and a further new id does not change that. *)
Lemma large_id_counterexample :
  exists s1 s2 s3,
    setitem 2 empty 0 300 = (s1, Ok tt) /\
    repack 1 s1 None = (s2, Ok tt) /\
    setitem 2 s2 1 301 = (s3, Ok tt) /\
    palette s2 = Some [0; 300] /\ bits s2 = 4 /\
    palette s3 = Some [0; 300; 301] /\ bits s3 = 4.
Proof.
  do 3 eexists. split; [vm_compute; reflexivity|].
  split; [vm_compute; reflexivity|].
  split; [vm_compute; reflexivity|]. repeat split.
Qed.

(** ** Further properties of [LightArray] *)

Lemma nibble_bits v j : 0 <= v < 16 -> 4 <= j -> Z.testbit v j = false.
Proof. intros Hv Hj. apply (small_bits v 4 j); [exact Hv|exact Hj]. Qed.

Lemma byte_bits w : (forall j, 8 <= j -> Z.testbit w j = false) -> 0 <= w < 256.
Proof. intros Hw. apply (bits_small w 8); [lia|exact Hw]. Qed.

Lemma low_nibble_set w v :
  0 <= v < 16 -> Z.land (Z.lor (Z.land w 240) v) 15 = v.
Proof.
  intros Hv. change 240 with (Z.shiftl (Z.ones 4) 4). change 15 with (Z.ones 4).
  apply Z.bits_inj'. intros j Hj. bitwise.
  cases_cmp; try rewrite (nibble_bits v j) by lia; btauto.
Qed.

Lemma low_nibble_kept w v :
  Z.land (Z.lor (Z.land w 15) (Z.shiftl v 4)) 15 = Z.land w 15.
Proof.
  change 15 with (Z.ones 4). apply Z.bits_inj'. intros j Hj. bitwise.
  cases_cmp; try rewrite (Z.testbit_neg_r v) by lia; btauto.
Qed.

Lemma high_nibble_set w v :
  Z.shiftr (Z.lor (Z.land w 15) (Z.shiftl v 4)) 4 = v.
Proof.
  change 15 with (Z.ones 4). apply Z.bits_inj'. intros j Hj. bitwise.
  replace (j + 4 - 4) with j by lia. cases_cmp; btauto.
Qed.

Lemma high_nibble_kept w v :
  0 <= w < 256 -> 0 <= v < 16 ->
  Z.shiftr (Z.lor (Z.land w 240) v) 4 = Z.shiftr w 4.
Proof.
  intros Hw Hv. change 240 with (Z.shiftl (Z.ones 4) 4).
  apply Z.bits_inj'. intros j Hj. bitwise.
  replace (j + 4 - 4) with j by lia.
  rewrite (nibble_bits v (j + 4)) by lia.
  cases_cmp; try rewrite (small_bits w 8 (j + 4)) by (change (2 ^ 8) with 256; lia);
    btauto.
Qed.

Lemma low_write_byte w v :
  0 <= v < 16 -> LightArray.is_byte (Z.lor (Z.land w 240) v).
Proof.
  intros Hv. apply byte_bits. intros j Hj.
  change 240 with (Z.shiftl (Z.ones 4) 4). bitwise.
  rewrite (nibble_bits v j) by lia. cases_cmp; btauto.
Qed.

Lemma high_write_byte w v :
  0 <= v < 16 -> LightArray.is_byte (Z.lor (Z.land w 15) (Z.shiftl v 4)).
Proof.
  intros Hv. apply byte_bits. intros j Hj.
  change 15 with (Z.ones 4). bitwise.
  rewrite (nibble_bits v (j - 4)) by lia. cases_cmp; btauto.
Qed.

Lemma light_cell n :
  0 <= n < 4096 ->
  0 <= n / 2 < 2048 /\ (n mod 2 = 0 \/ n mod 2 = 1) /\ n = 2 * (n / 2) + n mod 2.
Proof. intros Hn. Z.div_mod_to_equations. lia. Qed.

Lemma light_getitem_eq data n w :
  0 <= n < 4096 -> data !! Z.to_nat (n / 2) = Some w ->
  LightArray.getitem data n =
  Ok (if n mod 2 =? 0 then Z.land w 15 else Z.shiftr w 4).
Proof.
  intros Hn Hw. destruct (light_cell n Hn) as (Hidx & _ & _).
  unfold LightArray.getitem. rewrite (py_get_nonneg data (n / 2) w) by (lia || exact Hw).
  destruct (n mod 2 =? 0); reflexivity.
Qed.

Lemma light_setitem_eq data n v w :
  0 <= n < 4096 -> data !! Z.to_nat (n / 2) = Some w ->
  LightArray.setitem data n v =
  Ok (<[Z.to_nat (n / 2) :=
        if n mod 2 =? 0 then Z.lor (Z.land w 240) v
        else Z.lor (Z.land w 15) (Z.shiftl v 4)]> data).
Proof.
  intros Hn Hw. destruct (light_cell n Hn) as (Hidx & _ & _).
  pose proof (lookup_lt_Some _ _ _ Hw) as Hlt.
  unfold LightArray.setitem. rewrite (py_get_nonneg data (n / 2) w) by (lia || exact Hw).
  unfold py_set. cbn [rbind]. rewrite py_norm_nonneg by lia.
  destruct (n mod 2 =? 0); reflexivity.
Qed.

(** X20.  Round trip: a light value from 0 to 15 written at an index in
    [0, 4096) is what that index reads afterwards, whatever the bytes
    held. *)
Theorem light_roundtrip data n v :
  length data = 2048%nat -> 0 <= n < 4096 -> 0 <= v < 16 ->
  exists data', LightArray.setitem data n v = Ok data' /\
    length data' = 2048%nat /\ LightArray.getitem data' n = Ok v.
Proof.
  intros Hlen Hn Hv. destruct (light_cell n Hn) as (Hidx & _ & _).
  destruct (lookup_lt_is_Some_2 data (Z.to_nat (n / 2))) as [w Hw]; [lia|].
  rewrite (light_setitem_eq data n v w Hn Hw). eexists. split; [reflexivity|].
  split; [rewrite length_insert; exact Hlen|].
  erewrite light_getitem_eq;
    [|exact Hn|apply list_lookup_insert_eq; apply lookup_lt_Some in Hw; exact Hw].
  f_equal. destruct (n mod 2 =? 0).
  - apply low_nibble_set, Hv.
  - apply high_nibble_set.
Qed.

(** X21.  A write of a light value from 0 to 15 into an array of 2048 bytes
    leaves 2048 bytes and changes what no other index reads, the other
    nibble of the same byte included. *)
Theorem light_frame data n m v :
  LightArray.wf data -> 0 <= n < 4096 -> 0 <= m < 4096 -> m <> n ->
  0 <= v < 16 ->
  exists data', LightArray.setitem data n v = Ok data' /\
    LightArray.wf data' /\
    LightArray.getitem data' m = LightArray.getitem data m.
Proof.
  intros [Hlen Hbytes] Hn Hm Hne Hv.
  destruct (light_cell n Hn) as (Hidx & Hoff & Hdiv).
  destruct (light_cell m Hm) as (Hidx' & Hoff' & Hdiv').
  destruct (lookup_lt_is_Some_2 data (Z.to_nat (n / 2))) as [w Hw]; [lia|].
  destruct (lookup_lt_is_Some_2 data (Z.to_nat (m / 2))) as [w' Hw']; [lia|].
  assert (Hbyte : LightArray.is_byte w)
    by (rewrite Forall_lookup in Hbytes; eauto).
  rewrite (light_setitem_eq data n v w Hn Hw). eexists. split; [reflexivity|].
  split.
  - constructor; [rewrite length_insert; exact Hlen|].
    apply Forall_insert; [exact Hbytes|].
    destruct (n mod 2 =? 0); [apply low_write_byte|apply high_write_byte]; exact Hv.
  - rewrite (light_getitem_eq data m w' Hm Hw').
    destruct (Z.eq_dec (m / 2) (n / 2)) as [Heq|Hneq].
    + rewrite Heq in Hw'. assert (w' = w) by congruence. subst w'.
      erewrite light_getitem_eq;
        [|exact Hm|rewrite Heq; apply list_lookup_insert_eq;
                   apply lookup_lt_Some in Hw; exact Hw].
      f_equal. destruct (Z.eqb_spec (n mod 2) 0), (Z.eqb_spec (m mod 2) 0); try lia.
      * apply high_nibble_kept; [exact Hbyte|exact Hv].
      * apply low_nibble_kept.
    + erewrite light_getitem_eq; [reflexivity|exact Hm|].
      rewrite list_lookup_insert_ne by lia. exact Hw'.
Qed.

(** X22.  Layout: byte [k] holds cell [2k] in its low nibble and cell [2k + 1]
    in its high nibble. *)
Theorem light_layout data k :
  LightArray.wf data -> 0 <= k < 2048 ->
  exists w lo hi, data !! Z.to_nat k = Some w /\
    LightArray.getitem data (2 * k) = Ok lo /\
    LightArray.getitem data (2 * k + 1) = Ok hi /\
    0 <= lo < 16 /\ 0 <= hi < 16 /\ w = lo + 16 * hi.
Proof.
  intros [Hlen Hbytes] Hk.
  destruct (lookup_lt_is_Some_2 data (Z.to_nat k)) as [w Hw]; [lia|].
  assert (Hbyte : LightArray.is_byte w)
    by (rewrite Forall_lookup in Hbytes; eauto).
  unfold LightArray.is_byte in Hbyte.
  exists w, (Z.land w 15), (Z.shiftr w 4).
  assert (H0 : (2 * k) / 2 = k /\ (2 * k) mod 2 = 0)
    by (Z.div_mod_to_equations; lia).
  assert (H1 : (2 * k + 1) / 2 = k /\ (2 * k + 1) mod 2 = 1)
    by (Z.div_mod_to_equations; lia).
  destruct H0 as [Hq0 Hr0]. destruct H1 as [Hq1 Hr1].
  change 15 with (Z.ones 4). rewrite Z.land_ones, Z.shiftr_div_pow2 by lia.
  change (2 ^ 4) with 16.
  splits; try (Z.div_mod_to_equations; lia).
  - exact Hw.
  - rewrite (light_getitem_eq data (2 * k) w) by (lia || (rewrite Hq0; exact Hw)).
    rewrite Hr0. simpl. change 15 with (Z.ones 4). rewrite Z.land_ones by lia.
    reflexivity.
  - rewrite (light_getitem_eq data (2 * k + 1) w) by (lia || (rewrite Hq1; exact Hw)).
    rewrite Hr1. simpl. rewrite Z.shiftr_div_pow2 by lia. reflexivity.
Qed.

(** X23.  Indices: from -4096 to -1 a light array reads and writes the cells
    from the end, and outside [-4096, 4096) both raise [IndexError]. *)
Theorem light_index_domain data n v :
  length data = 2048%nat ->
  (-4096 <= n < 0 ->
   LightArray.getitem data n = LightArray.getitem data (n + 4096) /\
   LightArray.setitem data n v = LightArray.setitem data (n + 4096) v) /\
  (~ (-4096 <= n < 4096) ->
   LightArray.getitem data n = Err IndexError /\
   LightArray.setitem data n v = Err IndexError).
Proof.
  intros Hlen. split.
  - intros Hn. unfold LightArray.getitem, LightArray.setitem, py_set.
    replace ((n + 4096) / 2) with (n / 2 + Z.of_nat (length data))
      by (Z.div_mod_to_equations; lia).
    replace ((n + 4096) mod 2) with (n mod 2) by (Z.div_mod_to_equations; lia).
    assert (- Z.of_nat (length data) <= n / 2 < 0)
      by (Z.div_mod_to_equations; lia).
    rewrite <- (py_get_shift data (n / 2)), <- (py_norm_shift data (n / 2)) by assumption.
    split; reflexivity.
  - intros Hn. unfold LightArray.getitem, LightArray.setitem.
    assert (~ (- Z.of_nat (length data) <= n / 2 < Z.of_nat (length data)))
      by (Z.div_mod_to_equations; lia).
    rewrite py_get_out by assumption. destruct (n mod 2 =? 0); split; reflexivity.
Qed.

Lemma light_getitems_range data a n :
  length data = 2048%nat -> 0 <= a -> 0 <= n -> a + n <= 4096 ->
  exists vs, LightArray.getitems data (seqZ a n) = Ok vs /\
    Forall2 (fun o v => LightArray.getitem data o = Ok v) (seqZ a n) vs.
Proof.
  intros Hlen Ha Hn. revert a Ha.
  induction (Z.to_nat n) as [|k IH] eqn:Hk in n, Hn |- *; intros a Ha Hb.
  - replace n with 0 by lia. exists []. split; [reflexivity|constructor].
  - rewrite seqZ_cons by lia.
    destruct (IH (Z.pred n) ltac:(lia) ltac:(lia) (Z.succ a) ltac:(lia) ltac:(lia))
      as (vs & Hvs & Hall).
    destruct (light_cell a ltac:(lia)) as (Hidx & _ & _).
    destruct (lookup_lt_is_Some_2 data (Z.to_nat (a / 2))) as [w Hw]; [lia|].
    pose proof (light_getitem_eq data a w ltac:(lia) Hw) as Hget.
    eexists. cbn [LightArray.getitems]. rewrite Hget, Hvs. split; [reflexivity|].
    constructor; assumption.
Qed.

(** X24.  Reading [self[a:b]] of a light array for [0 <= a <= b <= 4096] gives
    the [b - a] values the indices [a], ..., [b - 1] read, in order. *)
Theorem light_slice_reads data a b :
  length data = 2048%nat -> 0 <= a <= b -> b <= 4096 ->
  exists vs,
    LightArray.getitem_slice data (mk_slice (Some a) (Some b) None) = Ok vs /\
    Z.of_nat (length vs) = b - a /\
    forall k, 0 <= k < b - a ->
      exists v, vs !! Z.to_nat k = Some v /\
        LightArray.getitem data (a + k) = Ok v.
Proof.
  intros Hlen Hab Hb. unfold LightArray.getitem_slice.
  rewrite slice_indices_plain by lia. rewrite py_range_unit.
  destruct (light_getitems_range data a (b - a) Hlen) as (vs & Hvs & Hall); try lia.
  exists vs. splits; [exact Hvs| |].
  - rewrite <- (Forall2_length _ _ _ Hall), length_seqZ. lia.
  - intros k Hk.
    destruct (Forall2_lookup_l _ _ _ (Z.to_nat k) (a + k) Hall) as (v & Hv & Hget).
    { rewrite lookup_seqZ_lt by lia. f_equal. lia. }
    exists v. split; assumption.
Qed.

(** ** The further properties at concrete inputs *)

Lemma write_all_reads_witness :
  getitem (write_all 2 empty [(10, 5); (20, 6); (10, 7)]) 10 =
  match last_write [(10, 5); (20, 6); (10, 7)] 10 with
  | Some d => Ok d
  | None => getitem empty 10
  end.
Proof.
  apply (write_all_reads ids_registry_ok ids_set_ok 2
           [(10, 5); (20, 6); (10, 7)] empty 10);
    [apply reach_empty|lia| |lia].
  repeat (apply Forall_cons; split;
          [split; [simpl; lia|eexists; reflexivity]|]).
  apply Forall_nil. exact I.
Defined.

Lemma negative_index_witness :
  getitem empty (-3) = getitem empty (-3 + 4096) /\
  setitem 2 empty (-3) 5 = setitem 2 empty (-3 + 4096) 5.
Proof.
  apply (negative_index ids_registry_ok ids_set_ok 2 empty (-3) 5);
    [apply reach_empty|lia|lia].
Defined.

Lemma getitem_out_of_range_witness : getitem empty 5000 = Err IndexError.
Proof.
  apply (getitem_out_of_range ids_registry_ok ids_set_ok empty 5000);
    [apply reach_empty|lia].
Defined.

Lemma palette_invariant_witness :
  match palette (fst (setitem 2 empty 10 5)) with
  | Some p =>
    4 <= bits (fst (setitem 2 empty 10 5)) <= 8 /\
    0 < Z.of_nat (length p) <= 2 ^ bits (fst (setitem 2 empty 10 5)) /\
    NoDup p /\ forall g, g ∈ p -> exists d, Ids.known g = Some d
  | None => bits (fst (setitem 2 empty 10 5)) = 16
  end.
Proof.
  apply (palette_invariant ids_registry_ok ids_set_ok (fst (setitem 2 empty 10 5))).
  apply reach_setitem; [apply reach_empty|lia].
Defined.

Lemma words_unsigned_64_witness : 0 <= 1 < 2 ^ 64.
Proof.
  apply (words_unsigned_64 ids_registry_ok ids_set_ok (fst (setitem 2 empty 0 5)) 1).
  - apply reach_setitem; [apply reach_empty|lia].
  - apply (list_elem_of_here 1 (replicate 255 0)).
Defined.

Lemma field_layout_witness :
  exists v, field (fst (setitem 2 empty 3 5)) 3 = Ok v /\
    0 <= v < 2 ^ bits (fst (setitem 2 empty 3 5)) /\
    Z.testbit v 0 =
    gbit (data (fst (setitem 2 empty 3 5))) (bits (fst (setitem 2 empty 3 5)) * 3 + 0).
Proof.
  apply (field_layout ids_registry_ok ids_set_ok (fst (setitem 2 empty 3 5)) 3 0).
  - apply reach_setitem; [apply reach_empty|lia].
  - lia.
  - simpl. lia.
Defined.

Lemma store_touches_own_field_witness :
  exists s', store empty 3 9 = (s', Ok tt) /\
    bits s' = bits empty /\ palette s' = palette empty /\
    length (data s') = length (data empty) /\
    gbit (data s') 13 =
      if (bits empty * 3 <=? 13) && (13 <? bits empty * 3 + bits empty)
      then Z.testbit 9 (13 - bits empty * 3) else gbit (data empty) 13.
Proof.
  apply (store_touches_own_field ids_registry_ok ids_set_ok empty 3 9 13);
    [apply reach_empty|lia|lia].
Defined.

Lemma repack_keeps_palette_witness :
  repack 1 (write_all 2 empty [(0, 5); (0, 0)]) None =
  (write_all 2 empty [(0, 5); (0, 0)], Ok tt).
Proof.
  apply (repack_keeps_palette ids_registry_ok ids_set_ok 1
           (write_all 2 empty [(0, 5); (0, 0)]) [0; 5]).
  - apply write_all_reachable; [lia|apply reach_empty].
  - lia.
  - reflexivity.
  - reflexivity.
Defined.

Lemma is_empty_false_after_removal_witness :
  exists s1 s2 s3,
    setitem 2 empty 7 5 = (s1, Ok tt) /\
    setitem 2 s1 7 0 = (s2, Ok tt) /\
    repack 1 s2 None = (s3, Ok tt) /\
    (forall n, 0 <= n < 4096 -> cell_id s3 n = Ok 0) /\
    is_empty s3 = false.
Proof.
  apply (is_empty_false_after_removal ids_registry_ok ids_set_ok 2 1 empty 7 5 5 0);
    try reflexivity; try lia. apply reach_empty.
Defined.

Lemma is_empty_direct_exact_witness :
  is_empty (fst (repack 1 empty (Some 300))) = true <->
  forall n, 0 <= n < 4096 -> cell_id (fst (repack 1 empty (Some 300))) n = Ok 0.
Proof.
  apply (is_empty_direct_exact ids_registry_ok ids_set_ok
           (fst (repack 1 empty (Some 300)))).
  - apply reach_reserve; [apply reach_empty|lia|lia].
  - destruct (repack_reserve_spec ids_registry_ok 0 empty 300 (inv_empty ids_registry_ok))
      as (s' & Hrp & _ & _ & Hcase); [lia|].
    rewrite Hrp. simpl fst. simpl in Hcase.
    destruct Hcase as [[Hb _]|(_ & _ & Hp)]; [discriminate Hb|exact Hp].
Defined.

Lemma getitem_slice_reads_witness :
  exists vs,
    getitem_slice empty (mk_slice (Some 2) (Some 5) None) = Ok vs /\
    Z.of_nat (length vs) = 5 - 2 /\
    forall k, 0 <= k < 5 - 2 ->
      exists d, vs !! Z.to_nat k = Some d /\ getitem empty (2 + k) = Ok d.
Proof.
  apply (getitem_slice_reads ids_registry_ok ids_set_ok empty 2 5);
    [apply reach_empty|lia|lia].
Defined.

Lemma iter_full_slice_witness :
  exists vs, iter empty = Ok vs /\
    getitem_slice empty (mk_slice None None None) = Ok vs /\
    Z.of_nat (length vs) = array_len /\
    forall n, 0 <= n < array_len ->
      exists d, vs !! Z.to_nat n = Some d /\ getitem empty n = Ok d.
Proof.
  apply (iter_full_slice ids_registry_ok ids_set_ok empty). apply reach_empty.
Defined.

Lemma setitem_slice_writes_witness :
  exists s',
    setitem_slice 2 empty (mk_slice (Some 1) (Some 3) None) [7; 8; 9]
      = (s', Ok tt) /\
    (forall o, 1 <= o < 3 ->
       of_option IndexError ([7; 8; 9] !! Z.to_nat o) = getitem s' o) /\
    (forall m, 0 <= m < 4096 -> ~ (1 <= m < 3) -> getitem s' m = getitem empty m).
Proof.
  apply (setitem_slice_writes ids_registry_ok ids_set_ok 2 empty 1 3 [7; 8; 9]);
    [apply reach_empty|lia|lia|lia|].
  intros o Ho. assert (Hcase : o = 1 \/ o = 2) by lia.
  destruct Hcase as [-> | ->]; eexists _, _; split; reflexivity.
Defined.

Lemma setitem_slice_short_witness :
  exists s',
    setitem_slice 2 empty (mk_slice (Some 1) (Some 4) None) [7; 8; 9]
      = (s', Err IndexError) /\
    (forall o, 1 <= o < Z.of_nat (length [7; 8; 9]) ->
       of_option IndexError ([7; 8; 9] !! Z.to_nat o) = getitem s' o) /\
    (forall m, 0 <= m < 4096 -> ~ (1 <= m < Z.of_nat (length [7; 8; 9])) ->
       getitem s' m = getitem empty m).
Proof.
  apply (setitem_slice_short ids_registry_ok ids_set_ok 2 empty 1 4 [7; 8; 9]);
    [apply reach_empty|lia|lia|lia|simpl; lia|].
  intros o d _ Hd. destruct o as [|[|[|o]]]; simpl in Hd; try discriminate;
    injection Hd as <-; eexists; reflexivity.
Defined.

Lemma light_wf_empty : LightArray.wf LightArray.empty.
Proof.
  constructor; [reflexivity|].
  apply Forall_replicate. unfold LightArray.is_byte. lia.
Qed.

Lemma light_roundtrip_witness :
  exists data', LightArray.setitem LightArray.empty 1 3 = Ok data' /\
    length data' = 2048%nat /\ LightArray.getitem data' 1 = Ok 3.
Proof.
  apply (light_roundtrip LightArray.empty 1 3); [reflexivity|lia|lia].
Defined.

Lemma light_frame_witness :
  exists data', LightArray.setitem LightArray.empty 0 9 = Ok data' /\
    LightArray.wf data' /\
    LightArray.getitem data' 1 = LightArray.getitem LightArray.empty 1.
Proof.
  apply (light_frame LightArray.empty 0 1 9 light_wf_empty); lia.
Defined.

Lemma light_layout_witness :
  exists w lo hi, (57 :: replicate 2047 0) !! Z.to_nat 0 = Some w /\
    LightArray.getitem (57 :: replicate 2047 0) (2 * 0) = Ok lo /\
    LightArray.getitem (57 :: replicate 2047 0) (2 * 0 + 1) = Ok hi /\
    0 <= lo < 16 /\ 0 <= hi < 16 /\ w = lo + 16 * hi.
Proof.
  apply (light_layout (57 :: replicate 2047 0) 0); [|lia].
  constructor; [reflexivity|].
  apply Forall_cons. split; [unfold LightArray.is_byte; lia|].
  apply Forall_replicate. unfold LightArray.is_byte. lia.
Defined.

Lemma light_index_domain_witness :
  (-4096 <= -1 < 0 ->
   LightArray.getitem LightArray.empty (-1) =
     LightArray.getitem LightArray.empty (-1 + 4096) /\
   LightArray.setitem LightArray.empty (-1) 3 =
     LightArray.setitem LightArray.empty (-1 + 4096) 3) /\
  (~ (-4096 <= -1 < 4096) ->
   LightArray.getitem LightArray.empty (-1) = Err IndexError /\
   LightArray.setitem LightArray.empty (-1) 3 = Err IndexError).
Proof.
  apply (light_index_domain LightArray.empty (-1) 3). reflexivity.
Defined.

Lemma light_slice_reads_witness :
  exists vs,
    LightArray.getitem_slice LightArray.empty (mk_slice (Some 0) (Some 4) None)
      = Ok vs /\
    Z.of_nat (length vs) = 4 - 0 /\
    forall k, 0 <= k < 4 - 0 ->
      exists v, vs !! Z.to_nat k = Some v /\
        LightArray.getitem LightArray.empty (0 + k) = Ok v.
Proof.
  apply (light_slice_reads LightArray.empty 0 4); [reflexivity|lia|lia].
Defined.

Lemma repack_palette_exact_witness :
  exists s1 s2,
    repack 1 empty (Some 100) = (s1, Ok tt) /\
    repack 1 s1 None = (s2, Ok tt) /\ bits s1 = 7 /\ bits s2 = 4 /\
    palette s2 = Some [0] /\
    NoDup [0] /\
    (forall g, g ∈ [0] <-> exists n, 0 <= n < 4096 /\ cell_id s2 n = Ok g) /\
    (is_empty s2 = true <-> forall n, 0 <= n < 4096 -> cell_id s2 n = Ok 0).
Proof.
  destruct (repack_reserve_spec ids_registry_ok 0 empty 100 (inv_empty ids_registry_ok))
    as (s1 & Hrp1 & Hinv1 & _ & Hcase1); [lia|].
  simpl in Hcase1.
  destruct Hcase1 as [[Hb _]|(_ & Hb1 & Hp1)]; [discriminate Hb|].
  destruct (repack_none_subset ids_registry_ok ids_set_ok 0 s1 [0] Hinv1 Hp1)
    as (s2 & pal & Hrp2 & Hsub & Hpos & Hcase2).
  assert (Hpal : pal = [0]).
  { pose proof (submseteq_length _ _ Hsub) as Hlen.
    destruct pal as [|x [|y pal]]; simpl in Hlen, Hpos; try lia.
    assert (Hx : x ∈ [0]) by (eapply elem_of_submseteq; [left|exact Hsub]).
    apply list_elem_of_singleton in Hx. congruence. }
  subst pal. simpl in Hcase2. rewrite Hb1 in Hcase2.
  destruct Hcase2 as [[Hb _]|(_ & Hb2 & Hp2)]; [discriminate Hb|].
  exists s1, s2. split; [exact Hrp1|]. split; [exact Hrp2|].
  split; [exact Hb1|]. split; [exact Hb2|]. split; [exact Hp2|].
  apply (repack_palette_exact ids_registry_ok ids_set_ok 1 s1 s2 [0]).
  - replace s1 with (fst (repack 1 empty (Some 100))) by (rewrite Hrp1; reflexivity).
    apply reach_reserve; [apply reach_empty|lia|lia].
  - lia.
  - exact Hrp2.
  - rewrite Hb1, Hb2. discriminate.
  - exact Hp2.
Defined.

Lemma slice_roundtrip_witness :
  exists s',
    setitem_slice 2 empty (mk_slice None None None) (replicate 4096 5)
      = (s', Ok tt) /\
    getitem_slice s' (mk_slice None None None) = Ok (replicate 4096 5).
Proof.
  apply (slice_roundtrip ids_registry_ok ids_set_ok 2 empty (replicate 4096 5));
    [apply reach_empty|lia|apply length_replicate|].
  intros d Hd. apply elem_of_replicate in Hd as [-> _]. exists 5. reflexivity.
Defined.

Lemma direct_mode_persists_witness :
  palette (fst (setitem 2 (mk (replicate 1024 0) 16 None) 3 70)) = None /\
  bits (fst (setitem 2 (mk (replicate 1024 0) 16 None) 3 70)) = 16 /\
  repack 2 (mk (replicate 1024 0) 16 None) (Some 1)
    = (mk (replicate 1024 0) 16 None, Ok tt).
Proof.
  apply (direct_mode_persists 2 (mk (replicate 1024 0) 16 None) 3 70 1).
  reflexivity.
Defined.

Lemma setitem_palette_step_witness :
  (5 ∈ [0] ->
   palette (fst (setitem 2 empty 3 5)) = Some [0] /\
   bits (fst (setitem 2 empty 3 5)) = bits empty) /\
  (5 ∉ [0] -> Z.of_nat (length [0]) < 256 ->
   palette (fst (setitem 2 empty 3 5)) = Some ([0] ++ [5]) /\
   bits (fst (setitem 2 empty 3 5)) =
     Z.max 4 (Z.log2_up (Z.of_nat (length [0]) + 1))) /\
  (5 ∉ [0] -> Z.of_nat (length [0]) = 256 ->
   palette (fst (setitem 2 empty 3 5)) = None /\
   bits (fst (setitem 2 empty 3 5)) = 16).
Proof.
  apply (setitem_palette_step ids_registry_ok ids_set_ok 2 empty 3 5 5 [0]);
    [apply reach_empty|lia|lia|reflexivity|reflexivity].
Defined.

Lemma repack_reserve_width_witness :
  (Z.of_nat (length [0]) + 100 <= 256 ->
   bits (fst (repack 1 empty (Some 100))) =
     Z.max 4 (Z.log2_up (Z.of_nat (length [0]) + 100)) /\
   palette (fst (repack 1 empty (Some 100))) = Some [0]) /\
  (256 < Z.of_nat (length [0]) + 100 ->
   bits (fst (repack 1 empty (Some 100))) = 16 /\
   (bits empty <> 16 -> palette (fst (repack 1 empty (Some 100))) = None)).
Proof.
  apply (repack_reserve_width ids_registry_ok ids_set_ok 1 empty 100 [0]);
    [apply reach_empty|lia|lia|reflexivity].
Defined.
